(** * StereoKit: the value types and inline math of [stereokit.h], and the
      start-up of the default resources in [systems/defaults.cpp].

    The header computes on C++ [float].  It is modelled as IEEE-754 binary32
    with round-to-nearest-even, through the Standard Library's executable
    specification of floating-point arithmetic ([SpecFloat], instantiated at
    a 24-bit significand and exponent bound 128).  Every operator of the
    header is one rounding of the corresponding exact operation, evaluated
    in the order the source writes it (no fused multiply-add, no excess
    precision). *)

From Stdlib Require Import ZArith QArith Bool List String Lia.
From Stdlib Require Import Floats.SpecFloat.
Import ListNotations.
Close Scope Q_scope.

Set Implicit Arguments.

(* ------------------------------------------------------------------ *)
(** ** C++ [float] *)

Module F32.

Definition prec : Z := 24.
Definition emax : Z := 128.

Definition float : Type := spec_float.

Definition add  : float -> float -> float := SFadd prec emax.
Definition sub  : float -> float -> float := SFsub prec emax.
Definition mul  : float -> float -> float := SFmul prec emax.
Definition div  : float -> float -> float := SFdiv prec emax.
Definition neg  : float -> float := SFopp.
Definition sqrtf : float -> float := SFsqrt prec emax.

(** The comparison [==] of C++: false on NaN, true on [+0 == -0]. *)
Definition eqb : float -> float -> bool := SFeqb.
Definition ltb : float -> float -> bool := SFltb.
Definition leb : float -> float -> bool := SFleb.

(** Conversion of an integer literal, as in [vec3{ 0,0,-1 }]. *)
Definition of_Z (z : Z) : float := binary_normalize prec emax z 0 false.

Definition nan  : float := S754_nan.
Definition pinf : float := S754_infinity false.

(** Zero or a finite non-zero number: neither an infinity nor NaN. *)
Definition is_finite (x : float) : bool :=
  match x with
  | S754_zero _ | S754_finite _ _ _ => true
  | _ => false
  end.

Definition is_nan (x : float) : bool :=
  match x with S754_nan => true | _ => false end.

(** A value of the format: a zero, an infinity, NaN, or a significand of at
    most 24 bits with its exponent in range, in canonical form. *)
Definition valid (x : float) : bool := valid_binary prec emax x.

End F32.

Definition float : Type := F32.float.

Declare Scope f32_scope.
Delimit Scope f32_scope with f32.
Infix "+" := F32.add : f32_scope.
Infix "-" := F32.sub : f32_scope.
Infix "*" := F32.mul : f32_scope.
Infix "/" := F32.div : f32_scope.
Notation "- x" := (F32.neg x) : f32_scope.
Notation "x == y" := (F32.eqb x y) (at level 70, no associativity) : f32_scope.
Notation "# z" := (F32.of_Z z) (at level 5, z at level 0, format "# z") : f32_scope.

Local Open Scope f32_scope.

(* ------------------------------------------------------------------ *)
(** ** The value types of the header *)

Record vec2 := mk_vec2 { v2x : float; v2y : float }.
Record vec3 := mk_vec3 { x : float; y : float; z : float }.
Record vec4 := mk_vec4 { v4x : float; v4y : float; v4z : float; v4w : float }.
Record quat := mk_quat { qi : float; qj : float; qk : float; qa : float }.

(** [vec4 row[4]]: four rows, [row0] being [row[0]]. *)
Record matrix := mk_matrix { row0 : vec4; row1 : vec4; row2 : vec4; row3 : vec4 }.

Record pose_t := mk_pose { position : vec3; orientation : quat }.

(** [typedef int32_t bool32_t]: zero is false, anything else is true. *)
Definition bool32_t : Type := Z.
Definition b32_true  : bool32_t := 1%Z.
Definition b32_false : bool32_t := 0%Z.
Definition b32_test (b : bool32_t) : bool := negb (Z.eqb b 0).

(* ------------------------------------------------------------------ *)
(** ** Value-returning operators (header lines 87-104) *)

Definition vec2_mul_f (a : vec2) (b : float) : vec2 := mk_vec2 (v2x a * b) (v2y a * b).
Definition vec2_div_f (a : vec2) (b : float) : vec2 := mk_vec2 (v2x a / b) (v2y a / b).
Definition vec2_add (a b : vec2) : vec2 := mk_vec2 (v2x a + v2x b) (v2y a + v2y b).
Definition vec2_sub (a b : vec2) : vec2 := mk_vec2 (v2x a - v2x b) (v2y a - v2y b).
Definition vec2_mul (a b : vec2) : vec2 := mk_vec2 (v2x a * v2x b) (v2y a * v2y b).
Definition vec2_div (a b : vec2) : vec2 := mk_vec2 (v2x a / v2x b) (v2y a / v2y b).

Definition vec3_mul_f (a : vec3) (b : float) : vec3 := mk_vec3 (x a * b) (y a * b) (z a * b).
Definition vec3_div_f (a : vec3) (b : float) : vec3 := mk_vec3 (x a / b) (y a / b) (z a / b).
Definition vec3_add (a b : vec3) : vec3 := mk_vec3 (x a + x b) (y a + y b) (z a + z b).
Definition vec3_sub (a b : vec3) : vec3 := mk_vec3 (x a - x b) (y a - y b) (z a - z b).
Definition vec3_neg (a : vec3) : vec3 := mk_vec3 (- x a) (- y a) (- z a).
Definition vec3_mul (a b : vec3) : vec3 := mk_vec3 (x a * x b) (y a * y b) (z a * z b).
Definition vec3_div (a b : vec3) : vec3 := mk_vec3 (x a / x b) (y a / y b) (z a / z b).

(** ** Named functions (header lines 110-116) *)

Definition vec3_magnitude_sq (a : vec3) : float := x a * x a + y a * y a + z a * z a.
Definition vec3_magnitude (a : vec3) : float := F32.sqrtf (x a * x a + y a * y a + z a * z a).
Definition vec3_normalize (a : vec3) : vec3 := vec3_div_f a (vec3_magnitude a).
Definition vec3_lerp (a b : vec3) (t : float) : vec3 := vec3_add a (vec3_mul_f (vec3_sub b a) t).
Definition vec3_dot (a b : vec3) : float := x a * x b + y a * y b + z a * z b.

Definition vec2_lerp (a b : vec2) (t : float) : vec2 := vec2_add a (vec2_mul_f (vec2_sub b a) t).

(** ** Constants (header lines 149-155) *)

Definition vec3_one     : vec3 := mk_vec3 #1 #1 #1.
Definition vec3_zero    : vec3 := mk_vec3 #0 #0 #0.
Definition vec3_up      : vec3 := mk_vec3 #0 #1 #0.
Definition vec3_forward : vec3 := mk_vec3 #0 #0 #(-1).
Definition vec3_right   : vec3 := mk_vec3 #1 #0 #0.
Definition quat_identity : quat := mk_quat #0 #0 #0 #1.
Definition matrix_identity : matrix :=
  mk_matrix (mk_vec4 #1 #0 #0 #0) (mk_vec4 #0 #1 #0 #0)
            (mk_vec4 #0 #0 #1 #0) (mk_vec4 #0 #0 #0 #1).

(** Components in declaration order, to speak of "every component". *)
Definition vec2_comps (v : vec2) : list float := [v2x v; v2y v].
Definition vec3_comps (v : vec3) : list float := [x v; y v; z v].
Definition vec4_comps (v : vec4) : list float := [v4x v; v4y v; v4z v; v4w v].
Definition quat_comps (q : quat) : list float := [qi q; qj q; qk q; qa q].
Definition matrix_rows (m : matrix) : list (list float) :=
  map vec4_comps [row0 m; row1 m; row2 m; row3 m].

(** [zip_with f u v]: [f] applied to corresponding components. *)
Definition zip_with (f : float -> float -> float) (u v : list float) : list float :=
  map (fun p => f (fst p) (snd p)) (combine u v).

(** Modelled from the spec: the magnitude of a quaternion, the Euclidean norm
    of its four components (the header declares no such function; section 3
    of the specification asks for magnitude 1). *)
Definition quat_magnitude (q : quat) : float :=
  F32.sqrtf (qi q * qi q + qj q * qj q + qk q * qk q + qa q * qa q).


(* ------------------------------------------------------------------ *)
(** ** Exact values

    To say what the roundings of a computation lose, a float is given its
    value as a rational number, and an operation is called exact at two
    operands when its result is finite and has the value of the rational
    operation on their values. *)

Definition to_Q (u : float) : Q :=
  match u with
  | S754_finite s m e =>
      let q := (inject_Z (Zpos m) * Qpower 2 e)%Q in if s then Qopp q else q
  | _ => 0%Q
  end.

Definition exact_op (f : float -> float -> float) (g : Q -> Q -> Q) (u v : float) : Prop :=
  F32.is_finite (f u v) = true /\ Qeq (to_Q (f u v)) (g (to_Q u) (to_Q v)).

(** Every operation of [vec3_sub a b], of [vec3_add a b], of
    [vec3_mul_f a s] and of [vec3_dot a b] is exact. *)
Definition exact_sub (a b : vec3) : Prop :=
  exact_op F32.sub Qminus (x a) (x b)
  /\ exact_op F32.sub Qminus (y a) (y b)
  /\ exact_op F32.sub Qminus (z a) (z b).
Definition exact_add (a b : vec3) : Prop :=
  exact_op F32.add Qplus (x a) (x b)
  /\ exact_op F32.add Qplus (y a) (y b)
  /\ exact_op F32.add Qplus (z a) (z b).


(* ------------------------------------------------------------------ *)
(** ** Compound assignment (header lines 93-96 and 105-108)

    [operator+=] and its siblings take their left operand by mutable
    reference, the vector operand on the right by const reference and the
    scalar operand by value.  Objects therefore live in a store, a reference
    is a location in it, and the two references of [a += b] may be the same
    location.  Each operator is the sequence of field assignments of the
    source, every one reading the store as its predecessor left it, and
    returns the reference it was given. *)

Definition ref : Type := nat.
Definition store (T : Type) : Type := ref -> T.

Definition write (T : Type) (h : store T) (r : ref) (v : T) : store T :=
  fun r' => if Nat.eqb r' r then v else h r'.

Definition vec2_with_x (v : vec2) (f : float) : vec2 := mk_vec2 f (v2y v).
Definition vec2_with_y (v : vec2) (f : float) : vec2 := mk_vec2 (v2x v) f.
Definition vec3_with_x (v : vec3) (f : float) : vec3 := mk_vec3 f (y v) (z v).
Definition vec3_with_y (v : vec3) (f : float) : vec3 := mk_vec3 (x v) f (z v).
Definition vec3_with_z (v : vec3) (f : float) : vec3 := mk_vec3 (x v) (y v) f.

Definition vec2_add_assign (a b : ref) (h : store vec2) : ref * store vec2 :=
  let h := write h a (vec2_with_x (h a) (v2x (h a) + v2x (h b))) in
  let h := write h a (vec2_with_y (h a) (v2y (h a) + v2y (h b))) in
  (a, h).
Definition vec2_sub_assign (a b : ref) (h : store vec2) : ref * store vec2 :=
  let h := write h a (vec2_with_x (h a) (v2x (h a) - v2x (h b))) in
  let h := write h a (vec2_with_y (h a) (v2y (h a) - v2y (h b))) in
  (a, h).
Definition vec2_mul_assign (a : ref) (b : float) (h : store vec2) : ref * store vec2 :=
  let h := write h a (vec2_with_x (h a) (v2x (h a) * b)) in
  let h := write h a (vec2_with_y (h a) (v2y (h a) * b)) in
  (a, h).
Definition vec2_div_assign (a : ref) (b : float) (h : store vec2) : ref * store vec2 :=
  let h := write h a (vec2_with_x (h a) (v2x (h a) / b)) in
  let h := write h a (vec2_with_y (h a) (v2y (h a) / b)) in
  (a, h).

Definition vec3_add_assign (a b : ref) (h : store vec3) : ref * store vec3 :=
  let h := write h a (vec3_with_x (h a) (x (h a) + x (h b))) in
  let h := write h a (vec3_with_y (h a) (y (h a) + y (h b))) in
  let h := write h a (vec3_with_z (h a) (z (h a) + z (h b))) in
  (a, h).
Definition vec3_sub_assign (a b : ref) (h : store vec3) : ref * store vec3 :=
  let h := write h a (vec3_with_x (h a) (x (h a) - x (h b))) in
  let h := write h a (vec3_with_y (h a) (y (h a) - y (h b))) in
  let h := write h a (vec3_with_z (h a) (z (h a) - z (h b))) in
  (a, h).
Definition vec3_mul_assign (a : ref) (b : float) (h : store vec3) : ref * store vec3 :=
  let h := write h a (vec3_with_x (h a) (x (h a) * b)) in
  let h := write h a (vec3_with_y (h a) (y (h a) * b)) in
  let h := write h a (vec3_with_z (h a) (z (h a) * b)) in
  (a, h).
Definition vec3_div_assign (a : ref) (b : float) (h : store vec3) : ref * store vec3 :=
  let h := write h a (vec3_with_x (h a) (x (h a) / b)) in
  let h := write h a (vec3_with_y (h a) (y (h a) / b)) in
  let h := write h a (vec3_with_z (h a) (z (h a) / b)) in
  (a, h).

(* ------------------------------------------------------------------ *)
(** ** The math interface the header declares (lines 118-136)

    [quat_*], [matrix_*] and [ray_intersect_plane] are declared [SK_API] in
    the header and defined in translation units that are not part of these
    sources.  The functions the cached transform calls are taken as an
    interface; nothing is assumed about what they compute. *)

Class MathApi : Type := {
  quat_lookat          : vec3 -> vec3 -> quat;
  quat_mul_vec         : quat -> vec3 -> vec3;
  matrix_inverse       : matrix -> matrix;
  matrix_mul_point     : matrix -> vec3 -> vec3;
  matrix_mul_direction : matrix -> vec3 -> vec3;
  matrix_trs           : vec3 -> quat -> vec3 -> matrix
}.

(* ------------------------------------------------------------------ *)
(** ** [transform_t] (header lines 304-330) *)

Record transform_t := mk_transform {
  _position  : vec3;
  _scale     : vec3;
  _rotation  : quat;
  _dirty     : bool32_t;
  _transform : matrix
}.

Section Transform.
Context {api : MathApi}.

(** The bodies of the [transform_*] functions are not part of these
    sources; each is modelled from sections 3 and 4.4 of the specification.
    A function that takes the transform by mutable reference and returns a
    value returns the transform it leaves behind next to that value. *)

(** Modelled from the spec: [transform_initialize], "an explicit initialize
    call that sets identity defaults and dirty=true".  The cached matrix is
    left as the storage had it. *)
Definition transform_initialize (t : transform_t) : transform_t :=
  mk_transform vec3_zero vec3_one quat_identity b32_true (_transform t).

(** Modelled from the spec: [transform_set], the three setters at once;
    "update the field and set dirty=true". *)
Definition transform_set (t : transform_t) (position scale : vec3) (rotation : quat)
  : transform_t :=
  mk_transform position scale rotation b32_true (_transform t).

(** Modelled from the spec: [transform_set_position], "update the field and
    set dirty=true". *)
Definition transform_set_position (t : transform_t) (position : vec3) : transform_t :=
  mk_transform position (_scale t) (_rotation t) b32_true (_transform t).

(** Modelled from the spec: [transform_get_position], the stored field. *)
Definition transform_get_position (t : transform_t) : vec3 := _position t.

(** Modelled from the spec: [transform_set_scale], "update the field and set
    dirty=true". *)
Definition transform_set_scale (t : transform_t) (scale : vec3) : transform_t :=
  mk_transform (_position t) scale (_rotation t) b32_true (_transform t).

(** Modelled from the spec: [transform_get_scale], the stored field. *)
Definition transform_get_scale (t : transform_t) : vec3 := _scale t.

(** Modelled from the spec: [transform_set_rotation], "update the field and
    set dirty=true". *)
Definition transform_set_rotation (t : transform_t) (rotation : quat) : transform_t :=
  mk_transform (_position t) (_scale t) rotation b32_true (_transform t).

(** Modelled from the spec: [transform_get_rotation], the stored field. *)
Definition transform_get_rotation (t : transform_t) : quat := _rotation t.

(** Modelled from the spec: [transform_lookat], "sets rotation via
    lookAt(position, at), marks dirty". *)
Definition transform_lookat (t : transform_t) (at_ : vec3) : transform_t :=
  mk_transform (_position t) (_scale t) (quat_lookat (_position t) at_)
               b32_true (_transform t).

(** Modelled from the spec: [transform_forward], "rotate(rotation,
    canonicalForward)". *)
Definition transform_forward (t : transform_t) : vec3 :=
  quat_mul_vec (_rotation t) vec3_forward.

(** Modelled from the spec: [transform_update], "if dirty, recompute via
    trs(...) and clear dirty; otherwise return the cached value unchanged". *)
Definition transform_update (t : transform_t) : transform_t :=
  if b32_test (_dirty t)
  then mk_transform (_position t) (_scale t) (_rotation t) b32_false
                    (matrix_trs (_position t) (_rotation t) (_scale t))
  else t.

(** Modelled from the spec: [transform_matrix_out], the matrix read into an
    output parameter: update, then the cached matrix. *)
Definition transform_matrix_out (t : transform_t) : matrix * transform_t :=
  let t := transform_update t in (_transform t, t).

(** Modelled from the spec: [transform_matrix]: update, then the cached
    matrix. *)
Definition transform_matrix (t : transform_t) : matrix * transform_t :=
  let t := transform_update t in (_transform t, t).

(** Modelled from the spec: [transform_world_to_local], "must force a fresh
    recomputation of the matrix first if dirty, then invert"; the inverse is
    recomputed on every call. *)
Definition transform_world_to_local (t : transform_t) (world_coordinate : vec3)
  : vec3 * transform_t :=
  let t := transform_update t in
  (matrix_mul_point (matrix_inverse (_transform t)) world_coordinate, t).

(** Modelled from the spec: [transform_local_to_world], "transform a point
    through the cached matrix", brought up to date first. *)
Definition transform_local_to_world (t : transform_t) (local_coordinate : vec3)
  : vec3 * transform_t :=
  let t := transform_update t in
  (matrix_mul_point (_transform t) local_coordinate, t).

(** Modelled from the spec: [transform_world_to_local_dir], the direction
    variant: "transformDirection instead of transformPoint". *)
Definition transform_world_to_local_dir (t : transform_t) (world_direction : vec3)
  : vec3 * transform_t :=
  let t := transform_update t in
  (matrix_mul_direction (matrix_inverse (_transform t)) world_direction, t).

(** Modelled from the spec: [transform_local_to_world_dir], the direction
    variant. *)
Definition transform_local_to_world_dir (t : transform_t) (local_direction : vec3)
  : vec3 * transform_t :=
  let t := transform_update t in
  (matrix_mul_direction (_transform t) local_direction, t).

(** One call of the interface on a transform. *)
Inductive transform_call : Type :=
| call_set (position scale : vec3) (rotation : quat)
| call_set_position (position : vec3)
| call_get_position
| call_set_scale (scale : vec3)
| call_get_scale
| call_set_rotation (rotation : quat)
| call_get_rotation
| call_lookat (at_ : vec3)
| call_forward
| call_update
| call_matrix_out
| call_matrix
| call_world_to_local (p : vec3)
| call_local_to_world (p : vec3)
| call_world_to_local_dir (d : vec3)
| call_local_to_world_dir (d : vec3)
| call_initialize.

(** The transform a call leaves behind. *)
Definition after_call (c : transform_call) (t : transform_t) : transform_t :=
  match c with
  | call_set p s r => transform_set t p s r
  | call_set_position p => transform_set_position t p
  | call_set_scale s => transform_set_scale t s
  | call_set_rotation r => transform_set_rotation t r
  | call_lookat at_ => transform_lookat t at_
  | call_get_position | call_get_scale | call_get_rotation | call_forward => t
  | call_update => transform_update t
  | call_matrix_out => snd (transform_matrix_out t)
  | call_matrix => snd (transform_matrix t)
  | call_world_to_local p => snd (transform_world_to_local t p)
  | call_local_to_world p => snd (transform_local_to_world t p)
  | call_world_to_local_dir d => snd (transform_world_to_local_dir t d)
  | call_local_to_world_dir d => snd (transform_local_to_world_dir t d)
  | call_initialize => transform_initialize t
  end.

(** The transforms a client can hold: storage of any content, initialised,
    then used through the interface only. *)
Inductive reachable : transform_t -> Prop :=
| reachable_initialize : forall t0, reachable (transform_initialize t0)
| reachable_call : forall c t, reachable t -> reachable (after_call c t).

(** The TRS composition of the current fields. *)
Definition trs_of (t : transform_t) : matrix :=
  matrix_trs (_position t) (_rotation t) (_scale t).

(** The cache is valid: a clear dirty flag vouches for the cached matrix. *)
Definition cache_valid (t : transform_t) : Prop :=
  _dirty t = b32_false -> _transform t = trs_of t.

(** A call changed none of position, scale and rotation. *)
Definition same_fields (t t' : transform_t) : Prop :=
  _position t' = _position t /\ _scale t' = _scale t /\ _rotation t' = _rotation t.

(** What an accessor leaves behind on a transform [t]: a clear flag, the
    composition of the fields of [t] in the cache, the fields as they were. *)
Definition brought_up_to_date (t : transform_t) (t' : transform_t) : Prop :=
  _dirty t' = b32_false /\ _transform t' = trs_of t /\ same_fields t t'.

End Transform.

(** An implementation of the interface for closed examples: scale and
    translation on the rows of a row-vector matrix, rotations left out. *)
Definition unrotated_api : MathApi := {|
  quat_lookat := fun _ _ => quat_identity;
  quat_mul_vec := fun _ v => v;
  matrix_inverse := fun m =>
    let sx := #1 / v4x (row0 m) in
    let sy := #1 / v4y (row1 m) in
    let sz := #1 / v4z (row2 m) in
    mk_matrix (mk_vec4 sx #0 #0 #0) (mk_vec4 #0 sy #0 #0) (mk_vec4 #0 #0 sz #0)
              (mk_vec4 (- (v4x (row3 m) * sx)) (- (v4y (row3 m) * sy))
                       (- (v4z (row3 m) * sz)) #1);
  matrix_mul_point := fun m p =>
    mk_vec3 (x p * v4x (row0 m) + v4x (row3 m))
            (y p * v4y (row1 m) + v4y (row3 m))
            (z p * v4z (row2 m) + v4z (row3 m));
  matrix_mul_direction := fun m d =>
    mk_vec3 (x d * v4x (row0 m)) (y d * v4y (row1 m)) (z d * v4z (row2 m));
  matrix_trs := fun p _ s =>
    mk_matrix (mk_vec4 (x s) #0 #0 #0) (mk_vec4 #0 (y s) #0 #0) (mk_vec4 #0 #0 (z s) #0)
              (mk_vec4 (x p) (y p) (z p) #1)
|}.

(* ------------------------------------------------------------------ *)
(** ** [ray_intersect_plane] (header line 136) *)









(* ------------------------------------------------------------------ *)
(** ** [defaults_init] (defaults.cpp lines 9-107) *)

Module Defaults.

Local Open Scope Z_scope.
Local Open Scope string_scope.

(** Resource handles are pointers to private structures; only null or not
    matters here. *)
Definition ptr : Type := Z.
Definition nullptr : ptr := 0.
Definition is_null (p : ptr) : bool := Z.eqb p nullptr.

Record color32 := mk_color32 { r : Z; g : Z; b : Z; a : Z }.
Record vert_t := mk_vert { pos : vec3; norm : vec3; uv : vec2; col : color32 }.
Definition vind_t : Type := Z.

(** [tex_type_] and [tex_format_], for the default arguments of
    [tex2d_create]. *)
Definition tex_type_image_nomips : Z := Z.shiftl 1 0.
Definition tex_type_mips         : Z := Z.shiftl 1 4.
Definition tex_type_image        : Z := Z.lor tex_type_image_nomips tex_type_mips.
Definition tex_format_rgba32     : Z := 0.

(** The eleven globals of the file. *)
Inductive global : Type :=
| sk_default_tex | sk_default_tex_black | sk_default_tex_gray
| sk_default_tex_flat | sk_default_tex_rough | sk_default_quad
| sk_default_shader | sk_default_shader_pbr | sk_default_shader_unlit
| sk_default_shader_font | sk_default_material.

Definition global_eqb (u v : global) : bool :=
  match u, v with
  | sk_default_tex, sk_default_tex
  | sk_default_tex_black, sk_default_tex_black
  | sk_default_tex_gray, sk_default_tex_gray
  | sk_default_tex_flat, sk_default_tex_flat
  | sk_default_tex_rough, sk_default_tex_rough
  | sk_default_quad, sk_default_quad
  | sk_default_shader, sk_default_shader
  | sk_default_shader_pbr, sk_default_shader_pbr
  | sk_default_shader_unlit, sk_default_shader_unlit
  | sk_default_shader_font, sk_default_shader_font
  | sk_default_material, sk_default_material => true
  | _, _ => false
  end.

(** What the engine does on behalf of [defaults_init]: the calls that leave
    the file, with their arguments and, for the creating ones, the handle
    they returned. *)
Inductive event : Type :=
| tex2d_create_ev (id : string) (type format : Z) (ret : ptr)
| tex2d_set_colors_ev (texture : ptr) (width height : Z) (data : list color32)
| mesh_create_ev (id : string) (ret : ptr)
| mesh_set_verts_ev (mesh : ptr) (vertices : list vert_t) (vertex_count : Z)
| mesh_set_inds_ev (mesh : ptr) (indices : list vind_t) (index_count : Z)
| shader_create_ev (id hlsl : string) (ret : ptr)
| material_create_ev (id : string) (shader : ptr) (ret : ptr)
| material_set_texture_ev (material : ptr) (name : string) (value : ptr).

(** The parts of the engine the file links against: what each creating
    call returns, and the built-in shader sources of [shader_builtin.h]. *)
Record engine := mk_engine {
  tex2d_create_ret    : string -> ptr;
  mesh_create_ret     : string -> ptr;
  shader_create_ret   : string -> string -> ptr;
  material_create_ret : string -> ptr -> ptr;
  sk_shader_builtin_default : string;
  sk_shader_builtin_pbr     : string;
  sk_shader_builtin_unlit   : string;
  sk_shader_builtin_font    : string
}.

(** The state the function runs in: the globals and the calls made so far,
    oldest first. *)
Record world := mk_world { globals : global -> ptr; calls : list event }.

(** Computations that read and write the world and either go on with a
    value or leave the function with its return value. *)
Inductive flow (A : Type) : Type :=
| go_on (v : A)
| leave (result : bool).
Arguments go_on {A} v.
Arguments leave {A} result.

Definition M (A : Type) : Type := world -> flow A * world.

Definition ret (A : Type) (v : A) : M A := fun w => (go_on v, w).
Definition bind (A B : Type) (m : M A) (f : A -> M B) : M B :=
  fun w => match m w with
           | (go_on v, w') => f v w'
           | (leave res, w') => (leave res, w')
           end.
Definition return_ {A : Type} (res : bool) : M A := fun w => (leave res, w).

Notation "v <- m ;; f" := (bind m (fun v => f))
  (at level 61, m at next level, right associativity).
Notation "m ;; f" := (bind m (fun _ => f))
  (at level 61, right associativity).

Definition get (gl : global) : M ptr := fun w => (go_on (globals w gl), w).
Definition set (gl : global) (p : ptr) : M unit :=
  fun w => (go_on tt,
            mk_world (fun gl' => if global_eqb gl' gl then p else globals w gl')
                     (calls w)).
Definition emit (e : event) : M unit :=
  fun w => (go_on tt, mk_world (globals w) (calls w ++ [e])).

Section Engine.
Variable E : engine.

Definition tex2d_create (id : string) : M ptr :=
  let p := tex2d_create_ret E id in
  emit (tex2d_create_ev id tex_type_image tex_format_rgba32 p) ;; ret p.
Definition tex2d_set_colors (texture : ptr) (width height : Z) (data : list color32)
  : M unit := emit (tex2d_set_colors_ev texture width height data).
Definition mesh_create (id : string) : M ptr :=
  let p := mesh_create_ret E id in emit (mesh_create_ev id p) ;; ret p.
Definition mesh_set_verts (mesh : ptr) (vertices : list vert_t) (n : Z) : M unit :=
  emit (mesh_set_verts_ev mesh vertices n).
Definition mesh_set_inds (mesh : ptr) (indices : list vind_t) (n : Z) : M unit :=
  emit (mesh_set_inds_ev mesh indices n).
Definition shader_create (id hlsl : string) : M ptr :=
  let p := shader_create_ret E id hlsl in emit (shader_create_ev id hlsl p) ;; ret p.
Definition material_create (id : string) (shader : ptr) : M ptr :=
  let p := material_create_ret E id shader in
  emit (material_create_ev id shader p) ;; ret p.
Definition material_set_texture (material : ptr) (name : string) (value : ptr)
  : M unit := emit (material_set_texture_ev material name value).

(** [memset(tex_colors, 255, sizeof(color32) * 2 * 2)]: every byte of
    the four colours becomes 255. *)
Definition memset_colors (byte : Z) (count : nat) : list color32 :=
  repeat (mk_color32 byte byte byte byte) count.

(** [for (size_t i = 0; i < 2 * 2; i++) tex_colors[i] = c;] *)
Definition store_at (arr : list color32) (idx : nat) (c : color32) : list color32 :=
  firstn idx arr ++ c :: skipn (S idx) arr.
Definition fill_colors (tex_colors : list color32) (c : color32) : list color32 :=
  fold_left (fun arr idx => store_at arr idx c) (seq 0 (2 * 2)) tex_colors.

Definition quad_verts : list vert_t :=
  let white := mk_color32 255 255 255 255 in
  [ mk_vert (mk_vec3 #(-1) #(-1) #0) (mk_vec3 #0 #0 #(-1)) (mk_vec2 #0 #0) white;
    mk_vert (mk_vec3 #1    #(-1) #0) (mk_vec3 #0 #0 #(-1)) (mk_vec2 #1 #0) white;
    mk_vert (mk_vec3 #1    #1    #0) (mk_vec3 #0 #0 #(-1)) (mk_vec2 #1 #1) white;
    mk_vert (mk_vec3 #(-1) #1    #0) (mk_vec3 #0 #0 #(-1)) (mk_vec2 #0 #1) white ].
Definition quad_inds : list vind_t := [0; 1; 2; 0; 2; 3].

Definition defaults_init : M bool :=
  (* Default white texture *)
  p <- tex2d_create "default/tex2d" ;; set sk_default_tex p ;;
  p <- get sk_default_tex ;;
  if is_null p then return_ false else
  let tex_colors := memset_colors 255 (2 * 2) in
  p <- get sk_default_tex ;; tex2d_set_colors p 2 2 tex_colors ;;
  (* Default black texture *)
  p <- tex2d_create "default/tex2d_black" ;; set sk_default_tex_black p ;;
  p <- get sk_default_tex_black ;;
  if is_null p then return_ false else
  let tex_colors := fill_colors tex_colors (mk_color32 0 0 0 255) in
  p <- get sk_default_tex_black ;; tex2d_set_colors p 2 2 tex_colors ;;
  (* Default middle gray texture *)
  p <- tex2d_create "default/tex2d_gray" ;; set sk_default_tex_gray p ;;
  p <- get sk_default_tex_gray ;;
  if is_null p then return_ false else
  let tex_colors := fill_colors tex_colors (mk_color32 128 128 128 255) in
  p <- get sk_default_tex_gray ;; tex2d_set_colors p 2 2 tex_colors ;;
  (* Default normal map *)
  p <- tex2d_create "default/tex2d_flat" ;; set sk_default_tex_flat p ;;
  p <- get sk_default_tex_flat ;;
  if is_null p then return_ false else
  let tex_colors := fill_colors tex_colors (mk_color32 128 128 255 255) in
  p <- get sk_default_tex_flat ;; tex2d_set_colors p 2 2 tex_colors ;;
  (* Default metal/roughness map *)
  p <- tex2d_create "default/tex2d_rough" ;; set sk_default_tex_rough p ;;
  p <- get sk_default_tex_rough ;;
  if is_null p then return_ false else
  let tex_colors := fill_colors tex_colors (mk_color32 0 0 255 255) in
  p <- get sk_default_tex_rough ;; tex2d_set_colors p 2 2 tex_colors ;;
  (* Default rendering quad *)
  p <- mesh_create "default/quad" ;; set sk_default_quad p ;;
  p <- get sk_default_quad ;; mesh_set_verts p quad_verts 4 ;;
  p <- get sk_default_quad ;; mesh_set_inds p quad_inds 6 ;;
  (* Shaders *)
  p <- shader_create "default/shader" (sk_shader_builtin_default E) ;;
  set sk_default_shader p ;;
  p <- get sk_default_shader ;;
  if is_null p then return_ false else
  p <- shader_create "default/shader_pbr" (sk_shader_builtin_pbr E) ;;
  set sk_default_shader_pbr p ;;
  p <- get sk_default_shader_pbr ;;
  if is_null p then return_ false else
  p <- shader_create "default/shader_unlit" (sk_shader_builtin_unlit E) ;;
  set sk_default_shader_unlit p ;;
  p <- get sk_default_shader_unlit ;;
  if is_null p then return_ false else
  p <- shader_create "default/shader_font" (sk_shader_builtin_font E) ;;
  set sk_default_shader_font p ;;
  p <- get sk_default_shader_font ;;
  if is_null p then return_ false else
  s <- get sk_default_shader_pbr ;;
  p <- material_create "default/material" s ;; set sk_default_material p ;;
  p <- get sk_default_material ;;
  if is_null p then return_ false else
  m <- get sk_default_material ;; t <- get sk_default_tex ;;
  material_set_texture m "diffuse" t ;;
  return_ true.

(** The call: the value returned and the world left behind. *)
Definition run (w : world) : bool * world :=
  match defaults_init w with
  | (go_on res, w') => (res, w')
  | (leave res, w') => (res, w')
  end.

(** *** Vocabulary of the fail-fast statement *)

(** The ten results the function tests, in source order: five textures,
    four shaders, the material. *)
Definition checked_results : list ptr :=
  [ tex2d_create_ret E "default/tex2d";
    tex2d_create_ret E "default/tex2d_black";
    tex2d_create_ret E "default/tex2d_gray";
    tex2d_create_ret E "default/tex2d_flat";
    tex2d_create_ret E "default/tex2d_rough";
    shader_create_ret E "default/shader" (sk_shader_builtin_default E);
    shader_create_ret E "default/shader_pbr" (sk_shader_builtin_pbr E);
    shader_create_ret E "default/shader_unlit" (sk_shader_builtin_unlit E);
    shader_create_ret E "default/shader_font" (sk_shader_builtin_font E);
    material_create_ret E "default/material"
      (shader_create_ret E "default/shader_pbr" (sk_shader_builtin_pbr E)) ].

(** How many of them succeeded before the first null one. *)
Fixpoint successes (results : list ptr) : nat :=
  match results with
  | [] => 0%nat
  | p :: rest => if is_null p then 0%nat else S (successes rest)
  end.

(** Every call of a run in which nothing fails, in order. *)
Definition all_calls : list event :=
  let tex := tex2d_create_ret E in
  let white := mk_color32 255 255 255 255 in
  let pbr := shader_create_ret E "default/shader_pbr" (sk_shader_builtin_pbr E) in
  let tex_ev id := tex2d_create_ev id 17 0 (tex id) in
  let shader_ev id hlsl := shader_create_ev id hlsl (shader_create_ret E id hlsl) in
  [ tex_ev "default/tex2d";
    tex2d_set_colors_ev (tex "default/tex2d") 2 2 (repeat white 4);
    tex_ev "default/tex2d_black";
    tex2d_set_colors_ev (tex "default/tex2d_black") 2 2
                        (repeat (mk_color32 0 0 0 255) 4);
    tex_ev "default/tex2d_gray";
    tex2d_set_colors_ev (tex "default/tex2d_gray") 2 2
                        (repeat (mk_color32 128 128 128 255) 4);
    tex_ev "default/tex2d_flat";
    tex2d_set_colors_ev (tex "default/tex2d_flat") 2 2
                        (repeat (mk_color32 128 128 255 255) 4);
    tex_ev "default/tex2d_rough";
    tex2d_set_colors_ev (tex "default/tex2d_rough") 2 2
                        (repeat (mk_color32 0 0 255 255) 4);
    mesh_create_ev "default/quad" (mesh_create_ret E "default/quad");
    mesh_set_verts_ev (mesh_create_ret E "default/quad") quad_verts 4;
    mesh_set_inds_ev (mesh_create_ret E "default/quad") quad_inds 6;
    shader_ev "default/shader" (sk_shader_builtin_default E);
    shader_ev "default/shader_pbr" (sk_shader_builtin_pbr E);
    shader_ev "default/shader_unlit" (sk_shader_builtin_unlit E);
    shader_ev "default/shader_font" (sk_shader_builtin_font E);
    material_create_ev "default/material" pbr
                       (material_create_ret E "default/material" pbr);
    material_set_texture_ev (material_create_ret E "default/material" pbr)
                            "diffuse" (tex "default/tex2d") ].

(** The value each global receives when its assignment is reached. *)
Definition assigned_value (gl : global) : ptr :=
  match gl with
  | sk_default_tex => tex2d_create_ret E "default/tex2d"
  | sk_default_tex_black => tex2d_create_ret E "default/tex2d_black"
  | sk_default_tex_gray => tex2d_create_ret E "default/tex2d_gray"
  | sk_default_tex_flat => tex2d_create_ret E "default/tex2d_flat"
  | sk_default_tex_rough => tex2d_create_ret E "default/tex2d_rough"
  | sk_default_quad => mesh_create_ret E "default/quad"
  | sk_default_shader =>
      shader_create_ret E "default/shader" (sk_shader_builtin_default E)
  | sk_default_shader_pbr =>
      shader_create_ret E "default/shader_pbr" (sk_shader_builtin_pbr E)
  | sk_default_shader_unlit =>
      shader_create_ret E "default/shader_unlit" (sk_shader_builtin_unlit E)
  | sk_default_shader_font =>
      shader_create_ret E "default/shader_font" (sk_shader_builtin_font E)
  | sk_default_material =>
      material_create_ret E "default/material"
        (shader_create_ret E "default/shader_pbr" (sk_shader_builtin_pbr E))
  end.

End Engine.

(** A creation whose result the function tests, and which returned null. *)
Definition failed_creation (e : event) : bool :=
  match e with
  | tex2d_create_ev _ _ _ p | shader_create_ev _ _ p | material_create_ev _ _ p =>
      is_null p
  | _ => false
  end.

(** Position of a global's assignment among the eleven assignments. *)
Definition assignment_rank (gl : global) : nat :=
  match gl with
  | sk_default_tex => 0 | sk_default_tex_black => 1 | sk_default_tex_gray => 2
  | sk_default_tex_flat => 3 | sk_default_tex_rough => 4 | sk_default_quad => 5
  | sk_default_shader => 6 | sk_default_shader_pbr => 7
  | sk_default_shader_unlit => 8 | sk_default_shader_font => 9
  | sk_default_material => 10
  end%nat.

(** After [n] of the ten tested creations succeeded: the number of calls
    made by the time the function returns (the failing creation is the
    last of them; the quad's three calls sit between the fifth texture and
    the first shader), and the number of assignments to globals. *)
Definition calls_made (n : nat) : nat :=
  nth n [1; 3; 5; 7; 9; 14; 15; 16; 17; 18; 19]%nat 0%nat.
Definition assignments_made (n : nat) : nat :=
  nth n [1; 2; 3; 4; 5; 7; 8; 9; 10; 11; 11]%nat 0%nat.

(** An engine for closed examples: every creation succeeds, except those
    whose identifier is listed in [failing]. *)
Definition engine_failing (failing : list string) : engine :=
  let mk (id : string) : ptr :=
    if existsb (String.eqb id) failing then nullptr
    else Z.of_nat (String.length id) in
  mk_engine mk mk (fun id _ => mk id) (fun id _ => mk id)
            "default.hlsl" "pbr.hlsl" "unlit.hlsl" "font.hlsl".
Definition world0 : world := mk_world (fun _ => nullptr) [].

End Defaults.

From Stdlib Require Import Permutation.

(* ------------------------------------------------------------------ *)
(** ** Vocabulary for the sign and class of a float *)

(** The sign bit is clear, or the value is NaN: never below zero, never -0. *)
Definition sign_clear (u : float) : bool :=
  match u with
  | S754_nan => true
  | S754_zero s | S754_infinity s | S754_finite s _ _ => negb s
  end.

Definition is_infinite (u : float) : bool :=
  match u with S754_infinity _ => true | _ => false end.

Definition is_zero_value (u : float) : bool :=
  match u with S754_zero _ => true | _ => false end.

(** A number that is not below zero: NaN excluded, sign bit clear. *)
Definition nonneg_number (u : float) : bool := sign_clear u && negb (F32.is_nan u).

(** What [vec3_normalize] makes of one component [u] when the magnitude
    evaluated to an infinity ([degenerate_inf]) or to a zero
    ([degenerate_zero]): the quotient [r] is a zero or NaN in the first
    case, an infinity or NaN in the second, and never a finite non-zero
    number. *)
Definition degenerate_inf (u r : float) : Prop :=
  (F32.is_finite u = true -> is_zero_value r = true)
  /\ (F32.is_finite u = false -> F32.is_nan r = true).
Definition degenerate_zero (u r : float) : Prop :=
  (is_zero_value u = true \/ F32.is_nan u = true -> F32.is_nan r = true)
  /\ (is_zero_value u = false -> F32.is_nan u = false -> is_infinite r = true).

(* ------------------------------------------------------------------ *)
(** ** Flag enumerations (header lines 15-20 and the enums it is used on)

    [SK_MakeFlag(enumType)] gives an enumeration the operators [|], [|=],
    [&], [&=] and [~], each computed on [static_cast<int>] of its operands.
    An enumeration value is therefore modelled by its [int], a 32-bit
    two's-complement integer, and the operators by the bitwise operations of
    [Z], which agree with the machine's on that range. *)

Module Flags.
Local Open Scope Z_scope.

Definition is_int (n : Z) : Prop := - 2 ^ 31 <= n < 2 ^ 31.

Definition flag_or  (a b : Z) : Z := Z.lor a b.
Definition flag_and (a b : Z) : Z := Z.land a b.
Definition flag_not (a : Z) : Z := Z.lnot a.

(** [a |= b] and [a &= b]: both operands are references, the result is
    stored in the first and the reference to it returned. *)
Definition flag_or_assign (a b : ref) (h : store Z) : ref * store Z :=
  let h := write h a (flag_or (h a) (h b)) in (a, h).
Definition flag_and_assign (a b : ref) (h : store Z) : ref * store Z :=
  let h := write h a (flag_and (h a) (h b)) in (a, h).

(** [tex_type_] (lines 191-199); the image types are those of [Defaults]. *)
Definition tex_type_cubemap      : Z := Z.shiftl 1 1.
Definition tex_type_rendertarget : Z := Z.shiftl 1 2.
Definition tex_type_depth        : Z := Z.shiftl 1 3.
Definition tex_type_dynamic      : Z := Z.shiftl 1 5.

(** [text_align_] (lines 334-341). *)
Definition text_align_x_left   : Z := 0.
Definition text_align_y_top    : Z := 0.
Definition text_align_x_center : Z := Z.shiftl 1 1.
Definition text_align_y_center : Z := Z.shiftl 1 2.
Definition text_align_x_right  : Z := Z.shiftl 1 3.
Definition text_align_y_bottom : Z := Z.shiftl 1 4.

(** [input_source_] (lines 426-436). *)
Definition input_source_any         : Z := 0x7FFFFFFF.
Definition input_source_hand        : Z := Z.shiftl 1 0.
Definition input_source_hand_left   : Z := Z.shiftl 1 1.
Definition input_source_hand_right  : Z := Z.shiftl 1 2.
Definition input_source_gaze        : Z := Z.shiftl 1 4.
Definition input_source_gaze_head   : Z := Z.shiftl 1 5.
Definition input_source_gaze_eyes   : Z := Z.shiftl 1 6.
Definition input_source_gaze_cursor : Z := Z.shiftl 1 7.
Definition input_source_can_press   : Z := Z.shiftl 1 8.

(** [pointer_state_] (lines 439-442). *)
Definition pointer_state_none      : Z := 0.
Definition pointer_state_available : Z := Z.shiftl 1 0.

(** [input_state_] (lines 451-463). *)
Definition input_state_none        : Z := 0.
Definition input_state_any         : Z := 0x7FFFFFFF.
Definition input_state_tracked     : Z := Z.shiftl 1 0.
Definition input_state_justtracked : Z := Z.shiftl 1 1.
Definition input_state_untracked   : Z := Z.shiftl 1 2.
Definition input_state_pinch       : Z := Z.shiftl 1 3.
Definition input_state_justpinch   : Z := Z.shiftl 1 4.
Definition input_state_unpinch     : Z := Z.shiftl 1 5.
Definition input_state_grip        : Z := Z.shiftl 1 6.
Definition input_state_justgrip    : Z := Z.shiftl 1 7.
Definition input_state_ungrip      : Z := Z.shiftl 1 8.

(** The enumerators of each enumeration that stand for one flag (neither
    the zero enumerators, nor the masks [..._any], nor the composite
    [tex_type_image]), in declaration order. *)
Definition tex_type_flags : list Z :=
  [ Defaults.tex_type_image_nomips; tex_type_cubemap; tex_type_rendertarget;
    tex_type_depth; Defaults.tex_type_mips; tex_type_dynamic ].
Definition text_align_flags : list Z :=
  [ text_align_x_center; text_align_y_center; text_align_x_right; text_align_y_bottom ].
Definition input_source_flags : list Z :=
  [ input_source_hand; input_source_hand_left; input_source_hand_right;
    input_source_gaze; input_source_gaze_head; input_source_gaze_eyes;
    input_source_gaze_cursor; input_source_can_press ].
Definition pointer_state_flags : list Z := [ pointer_state_available ].
Definition input_state_flags : list Z :=
  [ input_state_tracked; input_state_justtracked; input_state_untracked;
    input_state_pinch; input_state_justpinch; input_state_unpinch;
    input_state_grip; input_state_justgrip; input_state_ungrip ].

Definition flag_enumerations : list (list Z) :=
  [ tex_type_flags; text_align_flags; input_source_flags; pointer_state_flags;
    input_state_flags ].

(** The value of [f1 | f2 | ... | fn], none being 0. *)
Definition flags_of (fs : list Z) : Z := fold_right flag_or 0 fs.

(** Distinct entries of a list have no bit in common, and no entry is 0. *)
Fixpoint disjoint_from (f : Z) (fs : list Z) : bool :=
  match fs with
  | [] => true
  | g :: rest => (Z.land f g =? 0) && disjoint_from f rest
  end.
Fixpoint pairwise_disjoint (fs : list Z) : bool :=
  match fs with
  | [] => true
  | f :: rest => negb (f =? 0) && disjoint_from f rest && pairwise_disjoint rest
  end.

End Flags.

(* ------------------------------------------------------------------ *)
(** ** [defaults_shutdown] (defaults.cpp lines 111-123) *)

Module Shutdown.
Import Defaults.
Local Open Scope Z_scope.

(** The releasing calls that leave the file, with the handle passed. *)
Inductive release_call : Type :=
| material_release_ev (material : ptr)
| shader_release_ev (shader : ptr)
| mesh_release_ev (mesh : ptr)
| tex2d_release_ev (texture : ptr).

(** The function reads the eleven globals and passes each to the release
    function of its type, in this order; it assigns nothing.  The result is
    the sequence of calls made in the world [w]. *)
Definition defaults_shutdown (w : world) : list release_call :=
  [ material_release_ev (globals w sk_default_material);
    shader_release_ev   (globals w sk_default_shader_font);
    shader_release_ev   (globals w sk_default_shader_unlit);
    shader_release_ev   (globals w sk_default_shader_pbr);
    shader_release_ev   (globals w sk_default_shader);
    mesh_release_ev     (globals w sk_default_quad);
    tex2d_release_ev    (globals w sk_default_tex);
    tex2d_release_ev    (globals w sk_default_tex_black);
    tex2d_release_ev    (globals w sk_default_tex_gray);
    tex2d_release_ev    (globals w sk_default_tex_flat);
    tex2d_release_ev    (globals w sk_default_tex_rough) ].

(** *** Vocabulary *)

Inductive kind : Type := texture | mesh | shader | material.

(** The handle a creating call returned, with the kind of resource. *)
Definition created (e : event) : list (kind * ptr) :=
  match e with
  | tex2d_create_ev _ _ _ p => [(texture, p)]
  | mesh_create_ev _ p => [(mesh, p)]
  | shader_create_ev _ _ p => [(shader, p)]
  | material_create_ev _ _ p => [(material, p)]
  | _ => []
  end.
Definition created_handles (l : list event) : list (kind * ptr) := flat_map created l.

(** The handle a releasing call was given, with the kind its function
    releases. *)
Definition released (c : release_call) : kind * ptr :=
  match c with
  | material_release_ev p => (material, p)
  | shader_release_ev p => (shader, p)
  | mesh_release_ev p => (mesh, p)
  | tex2d_release_ev p => (texture, p)
  end.
Definition released_handles (l : list release_call) : list (kind * ptr) := map released l.

(** The globals whose creation [defaults_init] tests: all but the quad. *)
Definition tested_globals : list global :=
  [ sk_default_tex; sk_default_tex_black; sk_default_tex_gray; sk_default_tex_flat;
    sk_default_tex_rough; sk_default_shader; sk_default_shader_pbr;
    sk_default_shader_unlit; sk_default_shader_font; sk_default_material ].

(** A call hands over buffers of exactly the announced size: [width *
    height] colours, [vertex_count] vertices, and [index_count] indices, a
    whole number of triangles, each index below the number of vertices of
    the quad. *)
Definition well_sized (e : event) : bool :=
  match e with
  | tex2d_set_colors_ev _ width height data =>
      Z.of_nat (List.length data) =? width * height
  | mesh_set_verts_ev _ vertices vertex_count =>
      Z.of_nat (List.length vertices) =? vertex_count
  | mesh_set_inds_ev _ indices index_count =>
      (Z.of_nat (List.length indices) =? index_count)
      && (index_count mod 3 =? 0)
      && forallb (fun idx => (0 <=? idx) && (idx <? Z.of_nat (List.length quad_verts)))
                 indices
  | _ => true
  end.

End Shutdown.

(* ------------------------------------------------------------------ *)
(** ** Unit constants and macros (header lines 142-147 and 157-159) *)

Module Units.

(** A decimal literal with suffix [f], [digits] followed by [decimals]
    decimal places: the compiler takes the float nearest to
    [digits / 10^decimals].  It is computed by one correctly rounded
    division of the two integers. *)
Definition float_literal (digits : positive) (decimals : Z) : float :=
  let '(mz, ez, lz) :=
    SFdiv_core_binary F32.prec F32.emax (Zpos digits) 0 (10 ^ decimals)%Z 0 in
  binary_round_aux F32.prec F32.emax false mz ez lz.

Definition deg2rad : float := float_literal 1745329252 11.
Definition rad2deg : float := float_literal 57295779513 9.
Definition cm2m : float := float_literal 1 2.
Definition mm2m : float := float_literal 1 3.
Definition m2cm : float := #100.
Definition m2mm : float := #1000.

Definition unit_cm (cm : float) : float := cm * float_literal 1 2.
Definition unit_mm (mm : float) : float := mm * float_literal 1 3.
Definition unit_dmm (dmm distance : float) : float := dmm * distance.

(** The float [f] is at least as close to the rational [q] as the floats on
    either side of it (same exponent, significand one less and one more);
    distances are compared by their squares. *)
Definition nearest_to (f : float) (q : Q) : bool :=
  match f with
  | S754_finite s m e =>
      let d u := let r := (to_Q u - q)%Q in Qmult r r in
      Qle_bool (d f) (d (S754_finite s (Pos.pred m) e))
      && Qle_bool (d f) (d (S754_finite s (Pos.succ m) e))
      && F32.valid f && F32.valid (S754_finite s (Pos.pred m) e)
      && F32.valid (S754_finite s (Pos.succ m) e)
  | _ => false
  end.

(** Whole degrees from 0 to 360 that do not come back from the conversion
    to radians and back as the float they were. *)
Definition degrees_altered : list Z :=
  filter (fun n => negb ((#n * deg2rad) * rad2deg == #n))
         (map Z.of_nat (seq 0 361)).

End Units.

(* ================================================================== *)
(** * Float arithmetic behind the operators *)

Module F32Facts.

Lemma add_comm : forall u v : float, u + v = v + u.
Proof.
  intros [s | s | | s m e] [s' | s' | | s' m' e']; try reflexivity;
    try (destruct s, s'; reflexivity).
  unfold F32.add, SFadd. rewrite (Z.min_comm e e'), Z.add_comm. reflexivity.
Qed.

Lemma mul_comm : forall u v : float, u * v = v * u.
Proof.
  intros [s | s | | s m e] [s' | s' | | s' m' e']; try reflexivity;
    try (destruct s, s'; reflexivity).
  unfold F32.mul, SFmul.
  now rewrite (xorb_comm s s'), (Pos.mul_comm m m'), (Z.add_comm e e').
Qed.

Lemma sub_add_neg : forall u v : float, u - v = u + - v.
Proof.
  intros [s | s | | s m e] [s' | s' | | s' m' e']; try reflexivity;
    destruct s, s'; reflexivity.
Qed.

Lemma neg_involutive : forall u : float, - - u = u.
Proof. intros [s | s | | s m e]; cbn; now rewrite ?negb_involutive. Qed.

(** Rounding treats the sign as a label. *)
Lemma binary_round_aux_opp :
  forall (s : bool) (m e : Z) (l : location),
    SFopp (binary_round_aux F32.prec F32.emax s m e l)
    = binary_round_aux F32.prec F32.emax (negb s) m e l.
Proof.
  intros s m e l. unfold binary_round_aux.
  destruct (shr_fexp F32.prec F32.emax m e l) as [mrs' e'].
  destruct (shr_fexp F32.prec F32.emax _ e' loc_Exact) as [mrs'' e''].
  destruct (shr_m mrs''); try reflexivity.
  destruct (Z.leb e'' (F32.emax - F32.prec)); reflexivity.
Qed.

Lemma neg_mul : forall u v : float, (- u) * v = - (u * v).
Proof.
  intros [s | s | | s m e] [s' | s' | | s' m' e']; try reflexivity;
    try (destruct s, s'; reflexivity).
  unfold F32.mul, F32.neg, SFmul. cbn [SFopp].
  rewrite binary_round_aux_opp. now rewrite negb_xorb_l.
Qed.

Lemma neg_div : forall u v : float, (- u) / v = - (u / v).
Proof.
  intros [s | s | | s m e] [s' | s' | | s' m' e']; try reflexivity;
    try (destruct s, s'; reflexivity).
  unfold F32.div, F32.neg, SFdiv. cbn [SFopp].
  destruct (SFdiv_core_binary F32.prec F32.emax (Z.pos m) e (Z.pos m') e') as [[mz ez] lz].
  rewrite binary_round_aux_opp. now rewrite negb_xorb_l.
Qed.

Lemma sub_self : forall u : float, F32.is_finite u = true -> u - u = #0.
Proof.
  intros [s | s | | s m e] H; try discriminate H.
  - destruct s; reflexivity.
  - unfold F32.sub, SFsub. now rewrite Z.sub_diag.
Qed.

(** *** Signs *)

Lemma binary_round_aux_sign_clear :
  forall (m e : Z) (l : location),
    sign_clear (binary_round_aux F32.prec F32.emax false m e l) = true.
Proof.
  intros m e l. unfold binary_round_aux.
  destruct (shr_fexp F32.prec F32.emax m e l) as [mrs' e'].
  destruct (shr_fexp F32.prec F32.emax _ e' loc_Exact) as [mrs'' e''].
  destruct (shr_m mrs''); try reflexivity.
  destruct (Z.leb e'' (F32.emax - F32.prec)); reflexivity.
Qed.

Lemma binary_round_sign_clear :
  forall (m : positive) (e : Z),
    sign_clear (binary_round F32.prec F32.emax false m e) = true.
Proof.
  intros m e. unfold binary_round.
  destruct (shl_align m e _) as [mz ez]. apply binary_round_aux_sign_clear.
Qed.

Lemma mul_self_sign_clear : forall u : float, sign_clear (u * u) = true.
Proof.
  intros [s | s | | s m e]; try reflexivity; try (destruct s; reflexivity).
  destruct s; apply binary_round_aux_sign_clear.
Qed.

Lemma add_sign_clear :
  forall u v : float,
    sign_clear u = true -> sign_clear v = true -> sign_clear (u + v) = true.
Proof.
  intros [s | s | | s m e] [s' | s' | | s' m' e'] Hu Hv; try reflexivity;
    cbn [sign_clear] in Hu, Hv;
    try (apply negb_true_iff in Hu); try (apply negb_true_iff in Hv); subst;
    try reflexivity.
  unfold F32.add, SFadd. cbn [cond_Zopp Z.add binary_normalize].
  apply binary_round_sign_clear.
Qed.

Lemma sqrtf_sign_clear :
  forall u : float, sign_clear u = true -> sign_clear (F32.sqrtf u) = true.
Proof.
  intros [s | s | | s m e] Hu; try reflexivity;
    cbn [sign_clear] in Hu; apply negb_true_iff in Hu; subst; try reflexivity.
  unfold F32.sqrtf, SFsqrt.
  destruct (SFsqrt_core_binary F32.prec F32.emax (Z.pos m) e) as [[mz ez] lz].
  apply binary_round_aux_sign_clear.
Qed.

Lemma sign_clear_not_below_zero :
  forall u : float, sign_clear u = true -> F32.ltb u #0 = false.
Proof.
  intros [s | s | | s m e] Hu; try reflexivity;
    cbn [sign_clear] in Hu; apply negb_true_iff in Hu; subst; reflexivity.
Qed.

(** *** NaN *)

Lemma is_nan_eq : forall u : float, F32.is_nan u = true -> u = F32.nan.
Proof. intros [s | s | | s m e] H; try discriminate H; reflexivity. Qed.

Lemma add_nan_r : forall u : float, u + F32.nan = F32.nan.
Proof. intros [s | s | | s m e]; reflexivity. Qed.

Lemma mul_nan_r : forall u : float, u * F32.nan = F32.nan.
Proof. intros [s | s | | s m e]; reflexivity. Qed.

Lemma div_nan_r : forall u : float, u / F32.nan = F32.nan.
Proof. intros [s | s | | s m e]; reflexivity. Qed.

(** *** Rounding a non-negative significand never yields NaN *)

Lemma shr_1_nonneg :
  forall mrs : shr_record, (0 <= shr_m mrs)%Z -> (0 <= shr_m (shr_1 mrs))%Z.
Proof.
  intros [m r s] H. cbn [shr_m] in H.
  destruct m as [| p | p]; [| destruct p | lia]; cbn; lia.
Qed.

Lemma iter_shr_1_nonneg :
  forall (n : positive) (mrs : shr_record),
    (0 <= shr_m mrs)%Z -> (0 <= shr_m (iter_pos shr_1 n mrs))%Z.
Proof.
  induction n as [n IH | n IH |]; intros mrs H; cbn [iter_pos].
  - apply IH, IH. now apply shr_1_nonneg.
  - now apply IH, IH.
  - now apply shr_1_nonneg.
Qed.

Lemma shr_fexp_nonneg :
  forall (m e : Z) (l : location),
    (0 <= m)%Z -> (0 <= shr_m (fst (shr_fexp F32.prec F32.emax m e l)))%Z.
Proof.
  intros m e l H. unfold shr_fexp, shr.
  assert (H0 : (0 <= shr_m (shr_record_of_loc m l))%Z)
    by (destruct l as [| []]; exact H).
  destruct (fexp F32.prec F32.emax (Zdigits2 m + e) - e)%Z; cbn [fst]; auto.
  now apply iter_shr_1_nonneg.
Qed.

Lemma round_nearest_even_nonneg :
  forall (m : Z) (l : location), (0 <= m)%Z -> (0 <= round_nearest_even m l)%Z.
Proof.
  intros m l H. unfold round_nearest_even.
  destruct l as [| []]; try destruct (Z.even m); lia.
Qed.

Lemma binary_round_aux_not_nan :
  forall (s : bool) (m e : Z) (l : location),
    (0 <= m)%Z -> F32.is_nan (binary_round_aux F32.prec F32.emax s m e l) = false.
Proof.
  intros s m e l H. unfold binary_round_aux.
  pose proof (shr_fexp_nonneg e l H) as H1.
  destruct (shr_fexp F32.prec F32.emax m e l) as [mrs' e']. cbn [fst] in H1.
  pose proof (shr_fexp_nonneg e' loc_Exact
                (round_nearest_even_nonneg (loc_of_shr_record mrs') H1)) as H2.
  destruct (shr_fexp F32.prec F32.emax _ e' loc_Exact) as [mrs'' e'']. cbn [fst] in H2.
  destruct (shr_m mrs''); [reflexivity | | lia].
  destruct (Z.leb e'' (F32.emax - F32.prec)); reflexivity.
Qed.

Lemma mul_self_nonneg_number :
  forall u : float, F32.is_nan u = false -> nonneg_number (u * u) = true.
Proof.
  intros u H. unfold nonneg_number. rewrite mul_self_sign_clear. cbn [andb].
  apply negb_true_iff.
  destruct u as [s | s | | s m e]; try discriminate H; try (destruct s; reflexivity).
  apply binary_round_aux_not_nan. lia.
Qed.

Lemma nonneg_number_cases :
  forall u : float,
    nonneg_number u = true ->
    u = S754_zero false \/ u = F32.pinf \/ exists m e, u = S754_finite false m e.
Proof.
  intros [[|] | [|] | | [|] m e] H; try discriminate H; eauto.
Qed.

Lemma add_nonneg_number :
  forall u v : float,
    nonneg_number u = true -> nonneg_number v = true ->
    nonneg_number (u + v) = true
    /\ (is_infinite u || is_infinite v = true -> u + v = F32.pinf).
Proof.
  intros u v Hu Hv.
  destruct (nonneg_number_cases _ Hu) as [-> | [-> | (m & e & ->)]];
    destruct (nonneg_number_cases _ Hv) as [-> | [-> | (m' & e' & ->)]];
    try (split; [reflexivity | intros H; try discriminate H; reflexivity]).
  split; [| intros H; discriminate H].
  unfold nonneg_number. rewrite add_sign_clear by reflexivity. cbn [andb].
  apply negb_true_iff.
  unfold F32.add, SFadd. cbn [cond_Zopp Z.add binary_normalize]. unfold binary_round.
  destruct (shl_align _ _ _) as [mz ez]. apply binary_round_aux_not_nan. lia.
Qed.

(** *** The square root of a number that is not below zero is a number *)

Lemma sqrtrem_fst_nonneg : forall n : Z, (0 <= fst (Z.sqrtrem n))%Z.
Proof.
  intros [| p | p]; [cbn; lia | | cbn; lia].
  pose proof (Z.sqrtrem_spec (Z.pos p) ltac:(lia)) as H.
  destruct (Z.sqrtrem (Z.pos p)) as [q r]. cbn [fst]. lia.
Qed.

Lemma sqrtf_not_nan :
  forall u : float, nonneg_number u = true -> F32.is_nan (F32.sqrtf u) = false.
Proof.
  intros u H.
  destruct (nonneg_number_cases _ H) as [-> | [-> | (m & e & ->)]]; try reflexivity.
  unfold F32.sqrtf, SFsqrt, SFsqrt_core_binary.
  match goal with
  | |- context [Z.sqrtrem ?n] =>
      pose proof (sqrtrem_fst_nonneg n) as P; destruct (Z.sqrtrem n) as [q r]
  end.
  cbn [fst] in P. now apply binary_round_aux_not_nan.
Qed.

(** The sum of three squares is NaN exactly when one of the three is. *)
Lemma squares_sum_is_nan :
  forall u v w : float,
    F32.is_nan (u * u + v * v + w * w)
    = F32.is_nan u || (F32.is_nan v || F32.is_nan w).
Proof.
  intros u v w.
  destruct (F32.is_nan u) eqn:Nu.
  { rewrite (is_nan_eq _ Nu). reflexivity. }
  destruct (F32.is_nan v) eqn:Nv.
  { rewrite (is_nan_eq _ Nv). change (F32.nan * F32.nan) with F32.nan.
    now rewrite add_nan_r. }
  destruct (F32.is_nan w) eqn:Nw.
  { rewrite (is_nan_eq _ Nw). change (F32.nan * F32.nan) with F32.nan.
    now rewrite add_nan_r. }
  cbn [orb].
  pose proof (mul_self_nonneg_number _ Nu) as Pu.
  pose proof (mul_self_nonneg_number _ Nv) as Pv.
  pose proof (mul_self_nonneg_number _ Nw) as Pw.
  destruct (add_nonneg_number _ _ Pu Pv) as [Puv _].
  destruct (add_nonneg_number _ _ Puv Pw) as [Puvw _].
  unfold nonneg_number in Puvw. apply andb_true_iff in Puvw.
  destruct Puvw as [_ N]. now apply negb_true_iff in N.
Qed.

Lemma squares_sum_nonneg_number :
  forall u v w : float,
    F32.is_nan (u * u + v * v + w * w) = false ->
    nonneg_number (u * u + v * v + w * w) = true.
Proof.
  intros u v w N. unfold nonneg_number. rewrite N. cbn [negb]. rewrite andb_true_r.
  repeat apply add_sign_clear; apply mul_self_sign_clear.
Qed.

End F32Facts.

(* ================================================================== *)
(** * Vector algebra *)

(** C6. Each binary operator, the negation, the scalar product and quotient
    and the componentwise product and quotient of [vec3] return the vector
    whose every component is the operation applied to the corresponding
    components of the operands; likewise for [vec2], which has no negation.
    The operators take their operands by const reference and are functions
    of their values alone: nothing is written back. *)
Theorem vec_operators_componentwise :
  forall (a b : vec3) (s : float) (c d : vec2),
    (vec3_comps (vec3_add a b) = zip_with F32.add (vec3_comps a) (vec3_comps b)
     /\ vec3_comps (vec3_sub a b) = zip_with F32.sub (vec3_comps a) (vec3_comps b)
     /\ vec3_comps (vec3_neg a) = map F32.neg (vec3_comps a)
     /\ vec3_comps (vec3_mul_f a s) = map (fun u => u * s) (vec3_comps a)
     /\ vec3_comps (vec3_div_f a s) = map (fun u => u / s) (vec3_comps a)
     /\ vec3_comps (vec3_mul a b) = zip_with F32.mul (vec3_comps a) (vec3_comps b)
     /\ vec3_comps (vec3_div a b) = zip_with F32.div (vec3_comps a) (vec3_comps b))
    /\
    (vec2_comps (vec2_add c d) = zip_with F32.add (vec2_comps c) (vec2_comps d)
     /\ vec2_comps (vec2_sub c d) = zip_with F32.sub (vec2_comps c) (vec2_comps d)
     /\ vec2_comps (vec2_mul_f c s) = map (fun u => u * s) (vec2_comps c)
     /\ vec2_comps (vec2_div_f c s) = map (fun u => u / s) (vec2_comps c)
     /\ vec2_comps (vec2_mul c d) = zip_with F32.mul (vec2_comps c) (vec2_comps d)
     /\ vec2_comps (vec2_div c d) = zip_with F32.div (vec2_comps c) (vec2_comps d)).
Proof.
  intros [ax ay az] [bx by_ bz] s [cx cy] [dx dy].
  repeat split.
Qed.

(** IEEE equality is reflexive on everything but NaN. *)
Lemma eqb_refl_not_nan : forall u : float, F32.is_nan u = false -> (u == u) = true.
Proof.
  intros [s | s | | s m e] H; try discriminate H.
  - reflexivity.
  - destruct s; reflexivity.
  - unfold F32.eqb, SFeqb, SFcompare.
    rewrite Z.compare_refl, Pos.compare_cont_refl.
    destruct s; reflexivity.
Qed.

(** C7 as the code has it.  [vec3_magnitude_sq] is the sum of the three
    squares, added left to right; [vec3_magnitude] is [sqrtf] of that same
    sum, so it is the very value [sqrtf (vec3_magnitude_sq a)] for every
    input.  The comparison [vec3_magnitude(a) == sqrtf(vec3_magnitude_sq(a))]
    is true exactly when that value is not NaN, and it is NaN exactly when
    a component of [a] is NaN. *)
Theorem vec3_magnitude_is_sqrt_of_magnitude_sq :
  forall a : vec3,
    vec3_magnitude_sq a = (x a * x a + y a * y a) + z a * z a
    /\ vec3_magnitude a = F32.sqrtf ((x a * x a + y a * y a) + z a * z a)
    /\ vec3_magnitude a = F32.sqrtf (vec3_magnitude_sq a)
    /\ (vec3_magnitude a == F32.sqrtf (vec3_magnitude_sq a))
       = negb (F32.is_nan (vec3_magnitude a))
    /\ F32.is_nan (vec3_magnitude a) = existsb F32.is_nan (vec3_comps a)
    /\ (vec3_magnitude a == F32.sqrtf (vec3_magnitude_sq a))
       = negb (existsb F32.is_nan (vec3_comps a)).
Proof.
  intros v.
  assert (E : (vec3_magnitude v == F32.sqrtf (vec3_magnitude_sq v))
              = negb (F32.is_nan (vec3_magnitude v))).
  { change (F32.sqrtf (vec3_magnitude_sq v)) with (vec3_magnitude v).
    destruct (F32.is_nan (vec3_magnitude v)) eqn:N.
    - rewrite (F32Facts.is_nan_eq _ N). reflexivity.
    - now apply eqb_refl_not_nan. }
  assert (N : F32.is_nan (vec3_magnitude v) = existsb F32.is_nan (vec3_comps v)).
  { unfold vec3_magnitude, vec3_comps. cbn [existsb]. rewrite orb_false_r.
    rewrite <- F32Facts.squares_sum_is_nan.
    destruct (F32.is_nan (x v * x v + y v * y v + z v * z v)) eqn:S.
    - now rewrite (F32Facts.is_nan_eq _ S).
    - apply F32Facts.sqrtf_not_nan. now apply F32Facts.squares_sum_nonneg_number. }
  repeat split; try assumption. now rewrite E, N.
Qed.

(** The claim of equality for all inputs fails on the code: with a NaN in
    the second component both sides are NaN, and [==] is false on NaN. *)
Lemma vec3_magnitude_self_comparison_fails :
  let a := mk_vec3 #1 F32.nan #2 in
  vec3_magnitude a = F32.nan
  /\ F32.sqrtf (vec3_magnitude_sq a) = F32.nan
  /\ (vec3_magnitude a == F32.sqrtf (vec3_magnitude_sq a)) = false.
Proof. repeat split. Qed.

(** C8. The header's constants: up is +Y, forward is -Z, right is +X; the
    identity quaternion is (0,0,0,1) and has magnitude exactly 1; the
    identity matrix has the four unit rows.  Each is stated on the
    conversions of the integer literals and on the values they denote. *)
Theorem header_constants :
  (vec3_comps vec3_up = map F32.of_Z [0; 1; 0]%Z
   /\ vec3_comps vec3_forward = map F32.of_Z [0; 0; -1]%Z
   /\ vec3_comps vec3_right = map F32.of_Z [1; 0; 0]%Z
   /\ quat_comps quat_identity = map F32.of_Z [0; 0; 0; 1]%Z
   /\ matrix_rows matrix_identity =
      map (map F32.of_Z) [[1; 0; 0; 0]; [0; 1; 0; 0]; [0; 0; 1; 0]; [0; 0; 0; 1]]%Z)
  /\
  (Forall2 Qeq (map to_Q (vec3_comps vec3_up)) [0; 1; 0]%Q
   /\ Forall2 Qeq (map to_Q (vec3_comps vec3_forward)) [0; 0; -1]%Q
   /\ Forall2 Qeq (map to_Q (vec3_comps vec3_right)) [1; 0; 0]%Q
   /\ Forall2 Qeq (map to_Q (quat_comps quat_identity)) [0; 0; 0; 1]%Q
   /\ Forall2 (Forall2 Qeq) (map (map to_Q) (matrix_rows matrix_identity))
              [[1; 0; 0; 0]; [0; 1; 0; 0]; [0; 0; 1; 0]; [0; 0; 0; 1]]%Q
   /\ forallb F32.is_finite
        (vec3_comps vec3_up ++ vec3_comps vec3_forward ++ vec3_comps vec3_right
         ++ quat_comps quat_identity ++ List.concat (matrix_rows matrix_identity)) = true)
  /\
  (z vec3_forward = - #1
   /\ F32.ltb (z vec3_forward) #0 = true
   /\ quat_magnitude quat_identity = #1
   /\ Qeq (to_Q (quat_magnitude quat_identity)) 1).
Proof.
  split; [| split].
  - repeat split.
  - repeat split; repeat constructor.
  - repeat split.
Qed.

(** A vector too short for its squares to be representable also has
    magnitude 0: 2^-100 squared underflows, and the quotient is +Inf next to
    two NaN. *)
Example vec3_normalize_underflow :
  let tiny := S754_finite false 8388608 (-123) in
  vec3_magnitude (mk_vec3 tiny #0 #0) = #0
  /\ vec3_normalize (mk_vec3 tiny #0 #0) = mk_vec3 F32.pinf F32.nan F32.nan.
Proof. split; vm_compute; reflexivity. Qed.

(** C5. [vec3_normalize] has no test of the magnitude: for every input it is
    the componentwise quotient by [vec3_magnitude].  At a zero vector
    (whatever the signs of its zeros) the magnitude is zero and every
    component is 0/0 = NaN, returned as an ordinary value. *)
Theorem vec3_normalize_unguarded :
  (forall a : vec3,
      vec3_normalize a =
      mk_vec3 (x a / vec3_magnitude a) (y a / vec3_magnitude a) (z a / vec3_magnitude a))
  /\ vec3_magnitude vec3_zero = #0
  /\ vec3_normalize vec3_zero = mk_vec3 F32.nan F32.nan F32.nan
  /\ (forall sx sy sz : bool,
         vec3_normalize (mk_vec3 (S754_zero sx) (S754_zero sy) (S754_zero sz))
         = mk_vec3 F32.nan F32.nan F32.nan).
Proof.
  repeat split.
  intros [|] [|] [|]; vm_compute; reflexivity.
Qed.

(* ------------------------------------------------------------------ *)
(** ** Linear interpolation *)

Lemma mul_zero_finite :
  forall (u : float) (sz : bool),
    F32.is_finite u = true -> exists s, u * S754_zero sz = S754_zero s.
Proof.
  intros [s | s | | s m e] sz H; try discriminate H; eexists; reflexivity.
Qed.

Lemma add_zero_eqb :
  forall (u : float) (sz : bool),
    F32.is_finite u = true -> (u + S754_zero sz == u) = true.
Proof.
  intros [s | s | | s m e] sz H; try discriminate H.
  - destruct s, sz; reflexivity.
  - change (S754_finite s m e + S754_zero sz) with (S754_finite s m e).
    now apply eqb_refl_not_nan.
Qed.

(** One component of a lerp at [t = 0]. *)
Lemma lerp_component_at_zero :
  forall (u v : float) (sz : bool),
    F32.is_finite u = true -> F32.is_finite (v - u) = true ->
    (u + (v - u) * S754_zero sz == u) = true.
Proof.
  intros u v sz Fu Fd.
  destruct (@mul_zero_finite (v - u) sz Fd) as [s ->].
  now apply add_zero_eqb.
Qed.

Lemma digits2_pos_shift23 :
  forall m : positive,
    Zpos (digits2_pos (m * 8388608)) = (Zpos (digits2_pos m) + 23)%Z.
Proof.
  intros m. rewrite Pos.mul_comm. cbn [Pos.mul digits2_pos].
  rewrite !Pos2Z.inj_succ. lia.
Qed.

(** Multiplication by 1.0 is exact on every binary32 value: the product of
    the significands is the significand shifted left by 23 bits, and
    rounding shifts it back without losing a bit. *)
Lemma mul_one :
  forall u : float, F32.valid u = true -> u * #1 = u.
Proof.
  intros [s | s | | s m e] V;
    [destruct s; reflexivity | destruct s; reflexivity | reflexivity |].
  unfold F32.valid in V. cbn [valid_binary] in V. unfold bounded in V.
  apply andb_true_iff in V. destruct V as [C B].
  unfold canonical_mantissa in C. apply Z.eqb_eq in C.
  change #1 with (S754_finite false 8388608 (-23)).
  unfold F32.mul, SFmul, binary_round_aux, shr_fexp.
  unfold Zdigits2 at 1.
  rewrite digits2_pos_shift23.
  replace (Z.pos (digits2_pos m) + 23 + (e + -23))%Z
    with (Z.pos (digits2_pos m) + e)%Z by lia.
  rewrite C.
  replace (e - (e + -23))%Z with 23%Z by lia.
  rewrite (Pos.mul_comm m).
  cbn [Pos.mul shr shr_record_of_loc iter_pos shr_1 orb].
  replace (e + -23 + 23)%Z with e by lia.
  cbn [shr_m loc_of_shr_record round_nearest_even Zdigits2].
  rewrite C, Z.sub_diag.
  cbn [shr shr_record_of_loc shr_m].
  rewrite B. now rewrite xorb_false_r.
Qed.

(** One component of a lerp at [t = 1]: the value of [v] when neither the
    subtraction nor the addition rounds. *)
Lemma lerp_component_at_one :
  forall u v : float,
    F32.valid (v - u) = true ->
    exact_op F32.sub Qminus v u -> exact_op F32.add Qplus u (v - u) ->
    Qeq (to_Q (u + (v - u) * #1)) (to_Q v).
Proof.
  intros u v V [_ S] [_ A].
  rewrite (mul_one _ V), A, S. ring.
Qed.

(** C4 as the code has it.  [vec3_lerp] and [vec2_lerp] compute
    [a + (b - a) * t] in every component, for every [t] (at [t = 2] the
    result lies beyond [b]).  At [t = 0] (of either sign) every component of
    the result compares equal to that of [a], provided the components of
    [a] and of [b - a] are finite.  At [t = 1] the result is [a + (b - a)],
    the sum of [a] and the rounded difference; it has the value of [b] when
    neither the subtraction nor the addition rounds.  All of it holds for
    [vec3_lerp] and for [vec2_lerp]. *)
Theorem vec_lerp_formula_and_endpoints :
  (forall (a b : vec3) (t : float),
      vec3_comps (vec3_lerp a b t)
      = zip_with (fun u v => u + (v - u) * t) (vec3_comps a) (vec3_comps b))
  /\ (forall (a b : vec2) (t : float),
         vec2_comps (vec2_lerp a b t)
         = zip_with (fun u v => u + (v - u) * t) (vec2_comps a) (vec2_comps b))
  /\ vec3_lerp vec3_zero vec3_one #2 = mk_vec3 #2 #2 #2
  /\ (forall (a b : vec3) (sz : bool),
         forallb F32.is_finite (vec3_comps a) = true ->
         forallb F32.is_finite (vec3_comps (vec3_sub b a)) = true ->
         Forall2 (fun u v => (u == v) = true)
                 (vec3_comps (vec3_lerp a b (S754_zero sz))) (vec3_comps a))
  /\ (forall (a b : vec2) (sz : bool),
         forallb F32.is_finite (vec2_comps a) = true ->
         forallb F32.is_finite (vec2_comps (vec2_sub b a)) = true ->
         Forall2 (fun u v => (u == v) = true)
                 (vec2_comps (vec2_lerp a b (S754_zero sz))) (vec2_comps a))
  /\ (forall a b : vec3,
         forallb F32.valid (vec3_comps (vec3_sub b a)) = true ->
         vec3_lerp a b #1 = vec3_add a (vec3_sub b a))
  /\ (forall a b : vec2,
         forallb F32.valid (vec2_comps (vec2_sub b a)) = true ->
         vec2_lerp a b #1 = vec2_add a (vec2_sub b a))
  /\ (forall a b : vec3,
         forallb F32.valid (vec3_comps (vec3_sub b a)) = true ->
         exact_sub b a -> exact_add a (vec3_sub b a) ->
         Forall2 (fun u v => Qeq (to_Q u) (to_Q v))
                 (vec3_comps (vec3_lerp a b #1)) (vec3_comps b))
  /\ (forall a b : vec2,
         forallb F32.valid (vec2_comps (vec2_sub b a)) = true ->
         exact_op F32.sub Qminus (v2x b) (v2x a)
         /\ exact_op F32.sub Qminus (v2y b) (v2y a) ->
         exact_op F32.add Qplus (v2x a) (v2x (vec2_sub b a))
         /\ exact_op F32.add Qplus (v2y a) (v2y (vec2_sub b a)) ->
         Forall2 (fun u v => Qeq (to_Q u) (to_Q v))
                 (vec2_comps (vec2_lerp a b #1)) (vec2_comps b)).
Proof.
  split; [| split; [| split; [| split; [| split; [| split; [| split; [| split]]]]]]].
  - intros [ax ay az] [bx by_ bz] t. reflexivity.
  - intros [ax ay] [bx by_] t. reflexivity.
  - vm_compute. reflexivity.
  - intros [ax ay az] [bx by_ bz] sz Fa Fd. cbn in Fa, Fd.
    apply andb_true_iff in Fa. destruct Fa as [Fx Fa].
    apply andb_true_iff in Fa. destruct Fa as [Fy Fa].
    apply andb_true_iff in Fa. destruct Fa as [Fz _].
    apply andb_true_iff in Fd. destruct Fd as [Dx Fd].
    apply andb_true_iff in Fd. destruct Fd as [Dy Fd].
    apply andb_true_iff in Fd. destruct Fd as [Dz _].
    repeat constructor; now apply lerp_component_at_zero.
  - intros [ax ay] [bx by_] sz Fa Fd. cbn in Fa, Fd.
    apply andb_true_iff in Fa. destruct Fa as [Fx Fa].
    apply andb_true_iff in Fa. destruct Fa as [Fy _].
    apply andb_true_iff in Fd. destruct Fd as [Dx Fd].
    apply andb_true_iff in Fd. destruct Fd as [Dy _].
    repeat constructor; now apply lerp_component_at_zero.
  - intros [ax ay az] [bx by_ bz] V. cbn in V.
    apply andb_true_iff in V. destruct V as [Vx V].
    apply andb_true_iff in V. destruct V as [Vy V].
    apply andb_true_iff in V. destruct V as [Vz _].
    unfold vec3_lerp, vec3_mul_f, vec3_sub. cbn [x y z].
    now rewrite !mul_one.
  - intros [ax ay] [bx by_] V. cbn in V.
    apply andb_true_iff in V. destruct V as [Vx V].
    apply andb_true_iff in V. destruct V as [Vy _].
    unfold vec2_lerp, vec2_mul_f, vec2_sub. cbn [v2x v2y].
    now rewrite !mul_one.
  - intros [ax ay az] [bx by_ bz] V (Sx & Sy & Sz) (Ax & Ay & Az).
    cbn in V, Sx, Sy, Sz, Ax, Ay, Az.
    apply andb_true_iff in V. destruct V as [Vx V].
    apply andb_true_iff in V. destruct V as [Vy V].
    apply andb_true_iff in V. destruct V as [Vz _].
    repeat constructor; now apply lerp_component_at_one.
  - intros [ax ay] [bx by_] V (Sx & Sy) (Ax & Ay).
    cbn in V, Sx, Sy, Ax, Ay.
    apply andb_true_iff in V. destruct V as [Vx V].
    apply andb_true_iff in V. destruct V as [Vy _].
    repeat constructor; now apply lerp_component_at_one.
Qed.

(** C4 between (1,2,3) and (4,6,8), and between (1,2) and (4,6). *)
Lemma vec_lerp_formula_and_endpoints_witness :
  let a := mk_vec3 #1 #2 #3 in
  let b := mk_vec3 #4 #6 #8 in
  let c := mk_vec2 #1 #2 in
  let d := mk_vec2 #4 #6 in
  Forall2 (fun u v => (u == v) = true) (vec3_comps (vec3_lerp a b #0)) (vec3_comps a)
  /\ vec3_lerp a b #1 = vec3_add a (vec3_sub b a)
  /\ Forall2 (fun u v => Qeq (to_Q u) (to_Q v))
             (vec3_comps (vec3_lerp a b #1)) (vec3_comps b)
  /\ Forall2 (fun u v => (u == v) = true) (vec2_comps (vec2_lerp c d #0)) (vec2_comps c)
  /\ vec2_lerp c d #1 = vec2_add c (vec2_sub d c)
  /\ Forall2 (fun u v => Qeq (to_Q u) (to_Q v))
             (vec2_comps (vec2_lerp c d #1)) (vec2_comps d).
Proof.
  intros a b c d.
  destruct vec_lerp_formula_and_endpoints
    as (_ & _ & _ & Z3 & Z2 & O3 & O2 & E3 & E2).
  split; [| split; [| split; [| split; [| split]]]].
  - apply (Z3 a b false); reflexivity.
  - apply (O3 a b); reflexivity.
  - apply (E3 a b); [reflexivity | |];
      unfold exact_sub, exact_add, exact_op; repeat split; vm_compute; reflexivity.
  - apply (Z2 c d false); reflexivity.
  - apply (O2 c d); reflexivity.
  - apply (E2 c d); [reflexivity | |];
      unfold exact_op; repeat split; vm_compute; reflexivity.
Defined.

(** The claim of exact endpoints fails on the code.  Between 10^8 and 1 the
    difference 1 - 10^8 rounds to -10^8, so the interpolation at [t = 1]
    returns 0 where [b] holds 1.  Between -2^127 and 2^127 the difference
    overflows to +Inf, and the interpolation at [t = 0] returns NaN. *)
Lemma vec_lerp_endpoints_not_exact :
  (let a := mk_vec3 #100000000 #0 #0 in
   let b := mk_vec3 #1 #0 #0 in
   vec3_lerp a b #1 = mk_vec3 #0 #0 #0
   /\ (x (vec3_lerp a b #1) == x b) = false
   /\ vec2_lerp (mk_vec2 #100000000 #0) (mk_vec2 #1 #0) #1 = mk_vec2 #0 #0)
  /\
  (let big := S754_finite false 8388608 104 in
   let a := mk_vec3 (- big) #0 #0 in
   let b := mk_vec3 big #0 #0 in
   forallb F32.valid (vec3_comps a ++ vec3_comps b) = true
   /\ x (vec3_lerp a b #0) = F32.nan
   /\ (x (vec3_lerp a b #0) == x a) = false).
Proof.
  split; repeat split; vm_compute; reflexivity.
Qed.

(* ================================================================== *)
(** * Compound assignment *)

Ltac unfold_assign :=
  unfold vec3_add_assign, vec3_sub_assign, vec3_mul_assign, vec3_div_assign,
         vec2_add_assign, vec2_sub_assign, vec2_mul_assign, vec2_div_assign,
         write; cbn [fst snd].

(** The store after a vector-operand assignment [a op= b], read at [r]. *)
Lemma vec3_assign_store :
  forall (h : store vec3) (a b r : ref),
    snd (vec3_add_assign a b h) r = (if Nat.eqb r a then vec3_add (h a) (h b) else h r)
    /\ snd (vec3_sub_assign a b h) r = (if Nat.eqb r a then vec3_sub (h a) (h b) else h r).
Proof.
  intros h a b r. unfold_assign.
  rewrite !Nat.eqb_refl.
  destruct (Nat.eqb r a); [| split; reflexivity].
  destruct (Nat.eqb_spec b a) as [-> | _]; destruct (h a); split; reflexivity.
Qed.

Lemma vec2_assign_store :
  forall (h : store vec2) (a b r : ref),
    snd (vec2_add_assign a b h) r = (if Nat.eqb r a then vec2_add (h a) (h b) else h r)
    /\ snd (vec2_sub_assign a b h) r = (if Nat.eqb r a then vec2_sub (h a) (h b) else h r).
Proof.
  intros h a b r. unfold_assign.
  rewrite !Nat.eqb_refl.
  destruct (Nat.eqb r a); [| split; reflexivity].
  destruct (Nat.eqb_spec b a) as [-> | _]; destruct (h a); split; reflexivity.
Qed.

(** The store after a scalar-operand assignment [a op= s], read at [r]. *)
Lemma scalar_assign_store :
  forall (h3 : store vec3) (h2 : store vec2) (a r : ref) (s : float),
    snd (vec3_mul_assign a s h3) r = (if Nat.eqb r a then vec3_mul_f (h3 a) s else h3 r)
    /\ snd (vec3_div_assign a s h3) r = (if Nat.eqb r a then vec3_div_f (h3 a) s else h3 r)
    /\ snd (vec2_mul_assign a s h2) r = (if Nat.eqb r a then vec2_mul_f (h2 a) s else h2 r)
    /\ snd (vec2_div_assign a s h2) r = (if Nat.eqb r a then vec2_div_f (h2 a) s else h2 r).
Proof.
  intros h3 h2 a r s. unfold_assign.
  rewrite !Nat.eqb_refl.
  destruct (Nat.eqb r a); repeat split; reflexivity.
Qed.

(** C9. Executing [a += b], [a -= b], [a *= s] or [a /= s] on a [vec3] or
    [vec2] leaves in [a] the value the binary operator returns on the old
    value of [a] and the value of [b] (also when [b] is [a] itself), leaves
    every other object as it was, and returns the reference [a]. *)
Theorem compound_assignment_agrees_with_binary :
  forall (h3 : store vec3) (h2 : store vec2) (a b r : ref) (s : float),
    (fst (vec3_add_assign a b h3) = a
     /\ fst (vec3_sub_assign a b h3) = a
     /\ fst (vec3_mul_assign a s h3) = a
     /\ fst (vec3_div_assign a s h3) = a
     /\ fst (vec2_add_assign a b h2) = a
     /\ fst (vec2_sub_assign a b h2) = a
     /\ fst (vec2_mul_assign a s h2) = a
     /\ fst (vec2_div_assign a s h2) = a)
    /\
    (snd (vec3_add_assign a b h3) r = (if Nat.eqb r a then vec3_add (h3 a) (h3 b) else h3 r)
     /\ snd (vec3_sub_assign a b h3) r = (if Nat.eqb r a then vec3_sub (h3 a) (h3 b) else h3 r)
     /\ snd (vec3_mul_assign a s h3) r = (if Nat.eqb r a then vec3_mul_f (h3 a) s else h3 r)
     /\ snd (vec3_div_assign a s h3) r = (if Nat.eqb r a then vec3_div_f (h3 a) s else h3 r)
     /\ snd (vec2_add_assign a b h2) r = (if Nat.eqb r a then vec2_add (h2 a) (h2 b) else h2 r)
     /\ snd (vec2_sub_assign a b h2) r = (if Nat.eqb r a then vec2_sub (h2 a) (h2 b) else h2 r)
     /\ snd (vec2_mul_assign a s h2) r = (if Nat.eqb r a then vec2_mul_f (h2 a) s else h2 r)
     /\ snd (vec2_div_assign a s h2) r = (if Nat.eqb r a then vec2_div_f (h2 a) s else h2 r)).
Proof.
  intros h3 h2 a b r s.
  destruct (vec3_assign_store h3 a b r) as [A3 S3].
  destruct (vec2_assign_store h2 a b r) as [A2 S2].
  destruct (scalar_assign_store h3 h2 a r s) as (M3 & D3 & M2 & D2).
  split.
  - repeat split.
  - repeat split; assumption.
Qed.

(** [a += a] doubles every component, exactly as [a + a] does. *)
Example add_assign_self :
  let h : store vec3 := fun _ => mk_vec3 #1 #2 #3 in
  snd (vec3_add_assign 0 0 h) 0%nat = mk_vec3 #2 #4 #6.
Proof. vm_compute. reflexivity. Qed.

(* ================================================================== *)
(** * The cached transform *)

Section TransformFacts.
Context {api : MathApi}.

Lemma b32_test_false : forall b : bool32_t, b32_test b = false -> b = b32_false.
Proof.
  unfold b32_test, b32_false. intros b H.
  apply negb_false_iff in H. now apply Z.eqb_eq in H.
Qed.

Lemma transform_update_spec :
  forall t, cache_valid t -> brought_up_to_date t (transform_update t).
Proof.
  intros t V. unfold brought_up_to_date, transform_update, same_fields.
  destruct (b32_test (_dirty t)) eqn:D; cbn.
  - repeat split.
  - apply b32_test_false in D. repeat split; auto.
Qed.

Lemma transform_update_valid : forall t, cache_valid t -> cache_valid (transform_update t).
Proof.
  intros t V _. destruct (transform_update_spec V) as (_ & M & P & S & R).
  rewrite M. unfold trs_of. now rewrite P, S, R.
Qed.

Lemma transform_update_idempotent :
  forall t, transform_update (transform_update t) = transform_update t.
Proof.
  intros t. unfold transform_update at 2 3.
  destruct (b32_test (_dirty t)) eqn:D.
  - reflexivity.
  - unfold transform_update. now rewrite D.
Qed.

Lemma after_call_valid : forall c t, cache_valid t -> cache_valid (after_call c t).
Proof.
  intros c t V.
  destruct c; cbn [after_call transform_matrix_out transform_matrix
                   transform_world_to_local transform_local_to_world
                   transform_world_to_local_dir transform_local_to_world_dir snd];
    try assumption;
    try (now apply transform_update_valid);
    intros D; discriminate D.
Qed.

Lemma reachable_cache_valid : forall t, reachable t -> cache_valid t.
Proof.
  induction 1 as [t0 | c t _ IH].
  - intros D. discriminate D.
  - now apply after_call_valid.
Qed.

(** The round trip of a point goes through the matrix of the current fields
    and the inverse of that same matrix, whatever the cache held before. *)
Lemma world_local_round_trip_matrix :
  forall t p,
    reachable t ->
    let (q, t1) := transform_world_to_local t p in
    fst (transform_local_to_world t1 q)
    = matrix_mul_point (trs_of t) (matrix_mul_point (matrix_inverse (trs_of t)) p).
Proof.
  intros t p R. unfold transform_world_to_local, transform_local_to_world. cbn [fst].
  rewrite transform_update_idempotent.
  destruct (transform_update_spec (reachable_cache_valid R)) as (_ & M & _).
  now rewrite M.
Qed.

(** C1. (1) On every transform reachable from [transform_initialize] through
    the interface, a clear dirty flag means that the cached matrix is the
    TRS composition of the current position, rotation and scale.  (2) Each
    of the five setters leaves the flag set, and the matrix read next is the
    composition of the new fields.  (3) Each accessor that needs the matrix
    leaves the flag clear and the composition of the current fields in the
    cache, changes no field, and works with that matrix.  (4) A second
    matrix read directly after a first returns the same matrix and changes
    nothing. *)
Theorem transform_cache_invariant :
  (forall t, reachable t -> _dirty t = b32_false -> _transform t = trs_of t)
  /\
  (forall t p s r at_,
      (_dirty (transform_set t p s r) = b32_true
       /\ fst (transform_matrix (transform_set t p s r)) = matrix_trs p r s)
      /\ (_dirty (transform_set_position t p) = b32_true
          /\ fst (transform_matrix (transform_set_position t p))
             = matrix_trs p (_rotation t) (_scale t))
      /\ (_dirty (transform_set_scale t s) = b32_true
          /\ fst (transform_matrix (transform_set_scale t s))
             = matrix_trs (_position t) (_rotation t) s)
      /\ (_dirty (transform_set_rotation t r) = b32_true
          /\ fst (transform_matrix (transform_set_rotation t r))
             = matrix_trs (_position t) r (_scale t))
      /\ (_dirty (transform_lookat t at_) = b32_true
          /\ fst (transform_matrix (transform_lookat t at_))
             = matrix_trs (_position t) (quat_lookat (_position t) at_) (_scale t)))
  /\
  (forall t v,
      reachable t ->
      brought_up_to_date t (transform_update t)
      /\ transform_matrix t = (trs_of t, transform_update t)
      /\ transform_matrix_out t = (trs_of t, transform_update t)
      /\ transform_world_to_local t v
         = (matrix_mul_point (matrix_inverse (trs_of t)) v, transform_update t)
      /\ transform_local_to_world t v
         = (matrix_mul_point (trs_of t) v, transform_update t))
  /\
  (forall t,
      let (m1, t1) := transform_matrix t in
      transform_matrix t1 = (m1, t1)).
Proof.
  split; [| split; [| split]].
  - intros t R. exact (reachable_cache_valid R).
  - intros t p s r at_. repeat split.
  - intros t v R.
    pose proof (transform_update_spec (reachable_cache_valid R)) as U.
    destruct U as (D & M & F).
    unfold transform_matrix, transform_matrix_out, transform_world_to_local,
      transform_local_to_world.
    rewrite M. repeat split; try assumption; apply F.
  - intros t. unfold transform_matrix.
    now rewrite transform_update_idempotent.
Qed.

End TransformFacts.

(** C1 at a concrete transform: storage initialised, moved to (1,0,0) and
    read once is reachable with a clear flag, and holds the composition of
    its fields. *)
Lemma transform_cache_invariant_witness :
  let t0 := mk_transform vec3_zero vec3_zero quat_identity 7%Z matrix_identity in
  let t := @transform_update unrotated_api
             (transform_set_position (transform_initialize t0) vec3_right) in
  @reachable unrotated_api t
  /\ _dirty t = b32_false
  /\ _transform t = @trs_of unrotated_api t.
Proof.
  intros t0 t.
  assert (R : @reachable unrotated_api t).
  { apply (@reachable_call unrotated_api call_update).
    apply (@reachable_call unrotated_api (call_set_position vec3_right)).
    apply reachable_initialize. }
  split; [exact R |].
  split; [reflexivity |].
  apply (proj1 (@transform_cache_invariant unrotated_api) t R).
  reflexivity.
Defined.

(* ================================================================== *)
(** * Ray and plane *)

Section RayPlane.
Variable eps : float.







End RayPlane.



(* ================================================================== *)
(** * Start-up of the default resources *)

Module DefaultsFacts.
Import Defaults.
Local Open Scope string_scope.
Local Open Scope list_scope.

Lemma successes_all :
  forall results : list ptr,
    successes results = List.length results <-> Forall (fun p => p <> nullptr) results.
Proof.
  induction results as [| p rest IH]; cbn.
  - split; constructor.
  - unfold is_null at 1. destruct (Z.eqb_spec p nullptr) as [-> | NE].
    + split; [discriminate |]. intros H. inversion H; subst. congruence.
    + split.
      * intros H. injection H as H. constructor; [assumption | now apply IH].
      * intros H. inversion H; subst. f_equal. now apply IH.
Qed.

Section EngineFacts.
Variable E : engine.

Ltac run_to_tests :=
  cbv beta iota zeta delta
      [run defaults_init bind get set emit ret return_
       tex2d_create tex2d_set_colors mesh_create mesh_set_verts mesh_set_inds
       shader_create material_create material_set_texture
       globals calls global_eqb checked_results successes].

Ltac by_first_failure :=
  repeat match goal with
         | |- context [is_null ?p] =>
             let H := fresh "N" in destruct (is_null p) eqn:H
         end.

(** The run, told by the number of leading successes. *)
Lemma run_by_successes :
  forall w0,
    let n := successes (checked_results E) in
    fst (run E w0) = Nat.eqb n 10
    /\ calls (snd (run E w0)) = calls w0 ++ firstn (calls_made n) (all_calls E)
    /\ (forall gl,
           globals (snd (run E w0)) gl =
           if Nat.ltb (assignment_rank gl) (assignments_made n)
           then assigned_value E gl else globals w0 gl).
Proof.
  intros w0. run_to_tests. by_first_failure;
    (split; [reflexivity | split;
       [cbn [fst snd calls]; rewrite <- ?app_assoc; reflexivity
       | intros gl; destruct gl; reflexivity]]).
Qed.

(** When one of the ten fails, the run stops on a failed creation. *)
Lemma last_call_failed :
  let n := successes (checked_results E) in
  n <> 10%nat ->
  exists before e,
    firstn (calls_made n) (all_calls E) = before ++ [e] /\ failed_creation e = true.
Proof.
  cbv beta iota zeta delta [checked_results successes].
  by_first_failure; intros NE; try (exfalso; apply NE; reflexivity);
    match goal with
    | |- exists before e, ?l = _ /\ _ =>
        exists (removelast l), (last l (mesh_create_ev "" nullptr))
    end;
    (split; [reflexivity | cbn; assumption]).
Qed.

End EngineFacts.

(** C10. Let [n] be the number of the ten tested creations (five textures,
    four shaders, the material, in source order) that succeed before the
    first that returns null.  [defaults_init] returns true exactly when all
    ten succeed.  In every case the calls it makes are the first
    [calls_made n] calls of the complete sequence and the globals it assigns
    are the first [assignments_made n]: when a tested creation fails, that
    creation is the last call made, its null result is the last assignment,
    and false is returned; when none fails, the sequence ends with the
    assignment of the diffuse texture.  The result of [mesh_create] is not
    among the ten: a null quad is handed to [mesh_set_verts] and
    [mesh_set_inds] and the function goes on to return true. *)
Theorem defaults_init_fails_fast :
  forall (E : engine) (w0 : world),
    let n := successes (checked_results E) in
    let res := fst (run E w0) in
    let w := snd (run E w0) in
    (res = true <-> Forall (fun p => p <> nullptr) (checked_results E))
    /\ res = Nat.eqb n 10
    /\ calls w = calls w0 ++ firstn (calls_made n) (all_calls E)
    /\ (forall gl,
           globals w gl =
           if Nat.ltb (assignment_rank gl) (assignments_made n)
           then assigned_value E gl else globals w0 gl)
    /\ (n <> 10%nat ->
        res = false
        /\ exists before e,
             calls w = calls w0 ++ before ++ [e] /\ failed_creation e = true)
    /\ (n = 10%nat ->
        exists before,
          calls w = calls w0 ++ before ++
                    [material_set_texture_ev (assigned_value E sk_default_material)
                                             "diffuse" (assigned_value E sk_default_tex)])
    /\ (n = 10%nat -> mesh_create_ret E "default/quad" = nullptr ->
        res = true
        /\ globals w sk_default_quad = nullptr
        /\ In (mesh_set_verts_ev nullptr (quad_verts) 4) (calls w)
        /\ In (mesh_set_inds_ev nullptr quad_inds 6) (calls w)).
Proof.
  intros E w0 n res w.
  destruct (run_by_successes E w0) as (R & C & G).
  fold n in R, C, G. fold res in R. fold w in C, G.
  split; [| split; [exact R | split; [exact C | split; [exact G |]]]].
  - rewrite R, <- successes_all. change (List.length (checked_results E)) with 10%nat.
    apply Nat.eqb_eq.
  - split; [| split].
    + intros NE. split.
      * rewrite R. now apply Nat.eqb_neq.
      * destruct (last_call_failed E NE) as (before & e & P & F).
        fold n in P. exists before, e. rewrite C, P. now split.
    + intros EQ. rewrite C, EQ.
      exists (removelast (all_calls E)). reflexivity.
    + intros EQ Q. rewrite R, C, G, EQ. cbn [assignment_rank assignments_made nth Nat.ltb Nat.leb assigned_value calls_made].
      split; [reflexivity | split; [exact Q |]].
      unfold all_calls. rewrite Q. cbn [firstn].
      split; apply in_or_app; right; cbn; tauto.
Qed.

(** C10 at an engine whose shader "default/shader_pbr" fails to compile:
    seven of the ten creations succeed, fifteen calls are made. *)
Lemma defaults_init_fails_fast_witness :
  let E := engine_failing ["default/shader_pbr"] in
  successes (checked_results E) <> 10%nat
  /\ fst (run E world0) = false
  /\ exists before e,
       calls (snd (run E world0)) = calls world0 ++ before ++ [e]
       /\ failed_creation e = true.
Proof.
  intros E.
  assert (NE : successes (checked_results E) <> 10%nat) by (vm_compute; discriminate).
  split; [exact NE |].
  exact (proj1 (proj2 (proj2 (proj2 (proj2 (defaults_init_fails_fast E world0))))) NE).
Defined.

(** An engine where only [mesh_create] fails: the function returns true
    after handing the null quad to [mesh_set_verts]. *)
Example defaults_init_null_quad :
  let E := engine_failing ["default/quad"] in
  fst (run E world0) = true
  /\ In (mesh_set_verts_ev nullptr quad_verts 4) (calls (snd (run E world0))).
Proof. vm_compute. split; [reflexivity | tauto]. Qed.

End DefaultsFacts.

(* ================================================================== *)
(** * More on the vector operators *)

Import F32Facts.

Lemma vec_operators_commute_dot : forall a b : vec3, vec3_dot a b = vec3_dot b a.
Proof.
  intros a b. unfold vec3_dot.
  now rewrite (mul_comm (x a)), (mul_comm (y a)), (mul_comm (z a)).
Qed.

(** X1. Addition, the componentwise product and the dot product do not
    depend on the order of their operands: the two results are the same
    value, that is the same sign, significand and exponent, or both NaN.
    (Which NaN a NaN result is, its sign and payload, is not part of the
    model of floats and not part of the statement.) *)
Theorem vec_operators_commute :
  forall (a b : vec3) (c d : vec2),
    vec3_add a b = vec3_add b a
    /\ vec3_mul a b = vec3_mul b a
    /\ vec3_dot a b = vec3_dot b a
    /\ vec2_add c d = vec2_add d c
    /\ vec2_mul c d = vec2_mul d c.
Proof.
  intros a b c d.
  unfold vec3_add, vec3_mul, vec3_dot, vec2_add, vec2_mul.
  rewrite (add_comm (x a)), (add_comm (y a)), (add_comm (z a)).
  rewrite (mul_comm (x a)), (mul_comm (y a)), (mul_comm (z a)).
  rewrite (add_comm (v2x c)), (add_comm (v2y c)).
  rewrite (mul_comm (v2x c)), (mul_comm (v2y c)).
  repeat split.
Qed.

Lemma neg_mul_neg : forall u : float, (- u) * (- u) = u * u.
Proof.
  intros u. rewrite neg_mul, (mul_comm u (- u)), neg_mul. apply neg_involutive.
Qed.

(** X2. Subtraction is addition of the negated vector, negation undoes
    itself and commutes with scaling and with division by a scalar, and a
    vector and its negation have the same magnitude; all exactly. *)
Theorem vec3_negation_laws :
  forall (a b : vec3) (s : float),
    vec3_sub a b = vec3_add a (vec3_neg b)
    /\ vec3_neg (vec3_neg a) = a
    /\ vec3_mul_f (vec3_neg a) s = vec3_neg (vec3_mul_f a s)
    /\ vec3_div_f (vec3_neg a) s = vec3_neg (vec3_div_f a s)
    /\ vec3_magnitude_sq (vec3_neg a) = vec3_magnitude_sq a
    /\ vec3_magnitude (vec3_neg a) = vec3_magnitude a.
Proof.
  intros [ax ay az] [bx by_ bz] s.
  unfold vec3_sub, vec3_add, vec3_neg, vec3_mul_f, vec3_div_f,
    vec3_magnitude_sq, vec3_magnitude.
  cbn [x y z].
  rewrite !neg_mul_neg, !sub_add_neg, !neg_involutive, !neg_mul, !neg_div.
  repeat split.
Qed.

(** X3. The magnitude and the squared magnitude are never below zero and
    never the negative zero: each is NaN or has a clear sign bit, whatever
    the input. *)
Theorem vec3_magnitude_never_negative :
  forall a : vec3,
    sign_clear (vec3_magnitude_sq a) = true
    /\ sign_clear (vec3_magnitude a) = true
    /\ F32.ltb (vec3_magnitude_sq a) #0 = false
    /\ F32.ltb (vec3_magnitude a) #0 = false.
Proof.
  intros a.
  assert (S : sign_clear (vec3_magnitude_sq a) = true).
  { unfold vec3_magnitude_sq.
    repeat apply add_sign_clear; apply mul_self_sign_clear. }
  assert (M : sign_clear (vec3_magnitude a) = true).
  { change (vec3_magnitude a) with (F32.sqrtf (vec3_magnitude_sq a)).
    now apply sqrtf_sign_clear. }
  repeat split; auto using sign_clear_not_below_zero.
Qed.

(** X4. A NaN in any component of a vector makes its squared magnitude, its
    magnitude, every component of its normalisation and its dot product
    with any vector NaN. *)
Theorem vec3_nan_propagates :
  forall a b : vec3,
    existsb F32.is_nan (vec3_comps a) = true ->
    vec3_magnitude_sq a = F32.nan
    /\ vec3_magnitude a = F32.nan
    /\ vec3_normalize a = mk_vec3 F32.nan F32.nan F32.nan
    /\ vec3_dot a b = F32.nan
    /\ vec3_dot b a = F32.nan.
Proof.
  intros [ax ay az] b H. cbn in H.
  assert (D : forall c, vec3_dot (mk_vec3 ax ay az) c = F32.nan).
  { intros c. unfold vec3_dot. cbn [x y z].
    apply orb_true_iff in H. destruct H as [H | H].
    - rewrite (is_nan_eq _ H). reflexivity.
    - apply orb_true_iff in H. destruct H as [H | H].
      + rewrite (is_nan_eq _ H). change (F32.nan * y c) with F32.nan.
        now rewrite add_nan_r.
      + rewrite orb_false_r in H. rewrite (is_nan_eq _ H).
        change (F32.nan * z c) with F32.nan. now rewrite add_nan_r. }
  assert (S : vec3_magnitude_sq (mk_vec3 ax ay az) = F32.nan)
    by exact (D (mk_vec3 ax ay az)).
  assert (M : vec3_magnitude (mk_vec3 ax ay az) = F32.nan).
  { change (vec3_magnitude (mk_vec3 ax ay az))
      with (F32.sqrtf (vec3_magnitude_sq (mk_vec3 ax ay az))).
    now rewrite S. }
  repeat split; auto.
  - unfold vec3_normalize, vec3_div_f. rewrite M. cbn [x y z].
    now rewrite !div_nan_r.
  - rewrite vec_operators_commute_dot. apply D.
Qed.

(** X4 at a vector whose second component is NaN. *)
Lemma vec3_nan_propagates_witness :
  let a := mk_vec3 #1 F32.nan #2 in
  vec3_magnitude a = F32.nan /\ vec3_normalize a = mk_vec3 F32.nan F32.nan F32.nan.
Proof.
  intros a.
  destruct (@vec3_nan_propagates a vec3_zero) as (_ & M & N & _); [reflexivity |].
  split; assumption.
Defined.

Lemma div_by_infinity :
  forall (u : float) (s : bool), degenerate_inf u (u / S754_infinity s).
Proof.
  intros [s' | s' | | s' m e] s; split; intros H; try discriminate H; reflexivity.
Qed.

Lemma div_by_zero :
  forall (u : float) (s : bool), degenerate_zero u (u / S754_zero s).
Proof.
  intros [s' | s' | | s' m e] s; split; intros H; try discriminate H;
    try reflexivity; try (intros H'; try discriminate H'; reflexivity).
  all: destruct H as [H | H]; try discriminate H; reflexivity.
Qed.

Lemma squares_sum_infinite :
  forall u v w : float,
    F32.is_nan u = false -> F32.is_nan v = false -> F32.is_nan w = false ->
    is_infinite u || (is_infinite v || is_infinite w) = true ->
    u * u + v * v + w * w = F32.pinf.
Proof.
  intros u v w Nu Nv Nw I.
  pose proof (mul_self_nonneg_number _ Nu) as Pu.
  pose proof (mul_self_nonneg_number _ Nv) as Pv.
  pose proof (mul_self_nonneg_number _ Nw) as Pw.
  destruct (add_nonneg_number _ _ Pu Pv) as [Puv Iuv].
  destruct (add_nonneg_number _ _ Puv Pw) as [_ Iuvw].
  apply Iuvw.
  assert (Sq : forall t, is_infinite t = true -> is_infinite (t * t) = true).
  { intros [s | s | | s m e] H; try discriminate H. reflexivity. }
  apply orb_true_iff in I. destruct I as [I | I].
  - rewrite Iuv; [reflexivity | now rewrite (Sq _ I)].
  - apply orb_true_iff in I. destruct I as [I | I].
    + rewrite Iuv; [reflexivity | rewrite (Sq _ I); apply orb_true_r].
    + rewrite (Sq _ I). apply orb_true_r.
Qed.

(** X5. When the magnitude evaluates to an infinity (a component is
    infinite, or the squares overflow), [vec3_normalize] turns every finite
    component into a zero and every other into NaN; when it evaluates to a
    zero (a zero vector, or squares that underflow), every zero component
    becomes NaN and every other an infinity.  In neither case is the result
    a unit vector.  An infinite component, without a NaN beside it, always
    makes the magnitude +Inf. *)
Theorem vec3_normalize_degenerate :
  forall a : vec3,
    (is_infinite (vec3_magnitude a) = true ->
     Forall2 degenerate_inf (vec3_comps a) (vec3_comps (vec3_normalize a)))
    /\ (is_zero_value (vec3_magnitude a) = true ->
        Forall2 degenerate_zero (vec3_comps a) (vec3_comps (vec3_normalize a)))
    /\ (existsb is_infinite (vec3_comps a) = true ->
        existsb F32.is_nan (vec3_comps a) = false ->
        vec3_magnitude a = F32.pinf).
Proof.
  intros [ax ay az]. unfold vec3_normalize, vec3_div_f, vec3_comps. cbn [x y z].
  split; [| split].
  - intros H. destruct (vec3_magnitude (mk_vec3 ax ay az)); try discriminate H.
    repeat constructor; apply div_by_infinity.
  - intros H. destruct (vec3_magnitude (mk_vec3 ax ay az)); try discriminate H.
    repeat constructor; apply div_by_zero.
  - intros I N. cbn in I, N. rewrite orb_false_r in I, N.
    apply orb_false_iff in N. destruct N as [Nx N].
    apply orb_false_iff in N. destruct N as [Ny Nz].
    unfold vec3_magnitude. cbn [x y z].
    now rewrite squares_sum_infinite.
Qed.

(** X5 at the finite vector (2^100, 1, 0), whose squares overflow, and at
    the vector (2^-100, 0, 0), whose squares underflow. *)
Lemma vec3_normalize_degenerate_witness :
  let long := mk_vec3 (S754_finite false 8388608 77) #1 #0 in
  let short := mk_vec3 (S754_finite false 8388608 (-123)) #0 #0 in
  (forallb F32.is_finite (vec3_comps long) = true
   /\ Forall2 degenerate_inf (vec3_comps long) (vec3_comps (vec3_normalize long)))
  /\ Forall2 degenerate_zero (vec3_comps short) (vec3_comps (vec3_normalize short))
  /\ vec3_magnitude (mk_vec3 #1 F32.pinf #0) = F32.pinf.
Proof.
  intros long short. split; [split; [reflexivity |] | split].
  - apply (proj1 (vec3_normalize_degenerate long)). reflexivity.
  - apply (proj1 (proj2 (vec3_normalize_degenerate short))). reflexivity.
  - apply (proj2 (proj2 (vec3_normalize_degenerate (mk_vec3 #1 F32.pinf #0))));
      reflexivity.
Defined.

Lemma zero_mul_finite :
  forall t : float, F32.is_finite t = true -> exists s, #0 * t = S754_zero s.
Proof.
  intros [s | s | | s m e] H; try discriminate H; eexists; reflexivity.
Qed.

Lemma lerp_component_between_equal :
  forall u t : float,
    F32.is_finite u = true -> F32.is_finite t = true ->
    (u + (u - u) * t == u) = true.
Proof.
  intros u t Fu Ft. rewrite (sub_self _ Fu).
  destruct (zero_mul_finite _ Ft) as [s ->].
  now apply add_zero_eqb.
Qed.

(** X6. Interpolating between a point and itself returns that point, for
    every finite parameter [t] and every point with finite components: each
    component of the result compares equal to the component of the point. *)
Theorem vec_lerp_between_equal :
  forall (a : vec3) (c : vec2) (t : float),
    F32.is_finite t = true ->
    (forallb F32.is_finite (vec3_comps a) = true ->
     Forall2 (fun u v => (u == v) = true) (vec3_comps (vec3_lerp a a t)) (vec3_comps a))
    /\ (forallb F32.is_finite (vec2_comps c) = true ->
        Forall2 (fun u v => (u == v) = true) (vec2_comps (vec2_lerp c c t)) (vec2_comps c)).
Proof.
  intros [ax ay az] [cx cy] t Ft. split; intros F; cbn in F.
  - apply andb_true_iff in F. destruct F as [Fx F].
    apply andb_true_iff in F. destruct F as [Fy F].
    apply andb_true_iff in F. destruct F as [Fz _].
    repeat constructor; now apply lerp_component_between_equal.
  - apply andb_true_iff in F. destruct F as [Fx F].
    apply andb_true_iff in F. destruct F as [Fy _].
    repeat constructor; now apply lerp_component_between_equal.
Qed.

(** X6 at the point (1,2,3) and the parameter 5. *)
Lemma vec_lerp_between_equal_witness :
  let a := mk_vec3 #1 #2 #3 in
  Forall2 (fun u v => (u == v) = true) (vec3_comps (vec3_lerp a a #5)) (vec3_comps a).
Proof.
  intros a.
  apply (proj1 (@vec_lerp_between_equal a (mk_vec2 #0 #0) #5 eq_refl)). reflexivity.
Defined.

(** X7. Scaling by 1.0 and the componentwise product with [vec3_one] return
    the vector itself, for every vector of binary32 values; scaling a finite
    vector by zero gives zeros, adding [vec3_zero] to it gives a vector that
    compares equal to it, and subtracting it from itself gives
    [vec3_zero]. *)
Theorem vec3_unit_and_zero_laws :
  forall a : vec3,
    (forallb F32.valid (vec3_comps a) = true ->
     vec3_mul_f a #1 = a /\ vec3_mul a vec3_one = a)
    /\ (forallb F32.is_finite (vec3_comps a) = true ->
        forallb is_zero_value (vec3_comps (vec3_mul_f a #0)) = true
        /\ Forall2 (fun u v => (u == v) = true)
                   (vec3_comps (vec3_add a vec3_zero)) (vec3_comps a)
        /\ vec3_sub a a = vec3_zero).
Proof.
  intros [ax ay az]. split; intros H; cbn in H;
    apply andb_true_iff in H; destruct H as [Hx H];
    apply andb_true_iff in H; destruct H as [Hy H];
    apply andb_true_iff in H; destruct H as [Hz _].
  - unfold vec3_mul_f, vec3_mul, vec3_one. cbn [x y z].
    now rewrite !mul_one.
  - split; [| split].
    + destruct (@mul_zero_finite ax false Hx) as [sx Ex].
      destruct (@mul_zero_finite ay false Hy) as [sy Ey].
      destruct (@mul_zero_finite az false Hz) as [sz Ez].
      unfold vec3_mul_f, vec3_comps. cbn [x y z].
      change #0 with (S754_zero false). now rewrite Ex, Ey, Ez.
    + repeat constructor; cbn [x y z vec3_zero];
        change #0 with (S754_zero false); now apply add_zero_eqb.
    + unfold vec3_sub, vec3_zero. cbn [x y z].
      now rewrite !sub_self.
Qed.

(** X7 at the vector (1,2,3). *)
Lemma vec3_unit_and_zero_laws_witness :
  let a := mk_vec3 #1 #2 #3 in
  vec3_mul_f a #1 = a /\ vec3_sub a a = vec3_zero.
Proof.
  intros a. destruct (vec3_unit_and_zero_laws a) as [U Z].
  split.
  - apply U. reflexivity.
  - apply Z. reflexivity.
Defined.

(* ================================================================== *)
(** * Flag enumerations *)

Module FlagsFacts.
Import Flags.
Local Open Scope Z_scope.

Lemma is_int_high_bits : forall n : Z, is_int n <-> (n / 2 ^ 31 = 0 \/ n / 2 ^ 31 = -1).
Proof.
  intros n. unfold is_int. split.
  - intros H. destruct (Z_lt_le_dec n 0).
    + right. symmetry. apply (Z.div_unique n (2 ^ 31) (-1) (n + 2 ^ 31)); lia.
    + left. apply Z.div_small. lia.
  - pose proof (Z.div_mod n (2 ^ 31) ltac:(lia)) as D.
    pose proof (Z.mod_pos_bound n (2 ^ 31) ltac:(lia)) as B.
    intros [H | H]; rewrite H in D; lia.
Qed.

(** X8. The flag operators stay within [int]: on 32-bit operands [|], [&]
    and [~] return 32-bit results, so the casts back to the enumeration
    lose nothing. *)
Theorem flag_operators_stay_in_int :
  forall a b : Z,
    is_int a -> is_int b ->
    is_int (flag_or a b) /\ is_int (flag_and a b) /\ is_int (flag_not a).
Proof.
  intros a b Ha Hb. split; [| split].
  - apply is_int_high_bits. apply is_int_high_bits in Ha, Hb.
    unfold flag_or. rewrite <- !Z.shiftr_div_pow2 in * by lia.
    rewrite Z.shiftr_lor. destruct Ha as [-> | ->], Hb as [-> | ->]; cbn; auto.
  - apply is_int_high_bits. apply is_int_high_bits in Ha, Hb.
    unfold flag_and. rewrite <- !Z.shiftr_div_pow2 in * by lia.
    rewrite Z.shiftr_land. destruct Ha as [-> | ->], Hb as [-> | ->]; cbn; auto.
  - unfold flag_not, is_int, Z.lnot in *. lia.
Qed.

(** X8 at the full mask or-ed with a complement, and at the complement of
    the full mask, which is the smallest [int]. *)
Lemma flag_operators_stay_in_int_witness :
  is_int (flag_or input_state_any (flag_not input_state_grip))
  /\ is_int (flag_and (flag_not input_state_any) (-1)).
Proof.
  assert (I : forall n, (-2147483648 <=? n) && (n <? 2147483648) = true -> is_int n).
  { intros n H. apply andb_true_iff in H. destruct H as [L U].
    apply Z.leb_le in L. apply Z.ltb_lt in U. unfold is_int. cbn. lia. }
  split.
  - apply (flag_operators_stay_in_int (a := input_state_any)
             (b := flag_not input_state_grip)); apply I; reflexivity.
  - apply (flag_operators_stay_in_int (a := flag_not input_state_any) (b := -1));
      apply I; reflexivity.
Defined.

Ltac bitwise :=
  apply Z.bits_inj'; intros n Hn;
  rewrite ?Z.land_spec, ?Z.lor_spec, ?Z.lnot_spec, ?Z.bits_0 by lia;
  rewrite ?Z.land_spec, ?Z.lor_spec, ?Z.lnot_spec, ?Z.bits_0 by lia.

Lemma disjoint_bits :
  forall f g n : Z, Z.land f g = 0 -> Z.testbit f n && Z.testbit g n = false.
Proof. intros f g n H. rewrite <- Z.land_spec, H. apply Z.bits_0. Qed.

(** X9. Setting, clearing and testing flags compose as expected, for all
    values: a flag just set tests as set, a flag just cleared tests as
    clear, neither changes the test of a flag that shares no bit with it,
    [~] undoes itself, and [|=] and [&=] store what [|] and [&] return,
    leave every other object alone and return their first operand, also
    when both operands are the same object. *)
Theorem flag_set_clear_test :
  forall a f g : Z,
    flag_and (flag_or a f) f = f
    /\ flag_and (flag_and a (flag_not f)) f = 0
    /\ flag_not (flag_not a) = a
    /\ (flag_and g f = 0 ->
        flag_and (flag_or a f) g = flag_and a g
        /\ flag_and (flag_and a (flag_not f)) g = flag_and a g)
    /\ (forall (h : store Z) (p q r : ref),
           flag_or_assign p q h = (p, snd (flag_or_assign p q h))
           /\ flag_and_assign p q h = (p, snd (flag_and_assign p q h))
           /\ snd (flag_or_assign p q h) r
              = (if Nat.eqb r p then flag_or (h p) (h q) else h r)
           /\ snd (flag_and_assign p q h) r
              = (if Nat.eqb r p then flag_and (h p) (h q) else h r)).
Proof.
  intros a f g. unfold flag_and, flag_or, flag_not.
  split; [| split; [| split; [| split]]].
  - bitwise. destruct (Z.testbit a n), (Z.testbit f n); reflexivity.
  - bitwise. destruct (Z.testbit a n), (Z.testbit f n); reflexivity.
  - apply Z.lnot_involutive.
  - intros D. split; bitwise; pose proof (disjoint_bits g f n D) as B;
      destruct (Z.testbit a n), (Z.testbit f n), (Z.testbit g n);
      try reflexivity; discriminate B.
  - intros h p q r. repeat split.
Qed.

(** X9 at three flags of [input_state_]. *)
Lemma flag_set_clear_test_witness :
  flag_and (flag_or input_state_pinch input_state_grip) input_state_tracked
  = flag_and input_state_pinch input_state_tracked.
Proof.
  apply (proj1 (proj2 (proj2 (proj2 (flag_set_clear_test
           input_state_pinch input_state_grip input_state_tracked))))).
  reflexivity.
Defined.

Lemma disjoint_from_spec :
  forall (f : Z) (fs : list Z),
    disjoint_from f fs = true -> forall g, In g fs -> Z.land f g = 0.
Proof.
  induction fs as [| g0 rest IH]; cbn; intros H g G; [contradiction |].
  apply andb_true_iff in H. destruct H as [H0 H].
  destruct G as [<- | G]; [now apply Z.eqb_eq | now apply IH].
Qed.

Lemma pairwise_disjoint_spec :
  forall fs : list Z,
    pairwise_disjoint fs = true ->
    (forall f, In f fs -> f <> 0)
    /\ (forall f g, In f fs -> In g fs -> f <> g -> Z.land f g = 0).
Proof.
  induction fs as [| f0 rest IH]; cbn; intros H.
  - split; intros; contradiction.
  - apply andb_true_iff in H. destruct H as [H P].
    apply andb_true_iff in H. destruct H as [N D].
    apply negb_true_iff, Z.eqb_neq in N.
    destruct (IH P) as [IN ID]. split.
    + intros f [<- | F]; auto.
    + intros f g [<- | F] [<- | G] NE; try congruence.
      * now apply (@disjoint_from_spec f0 rest D).
      * rewrite Z.land_comm. now apply (@disjoint_from_spec f0 rest D).
      * now apply ID.
Qed.

Lemma enumerations_disjoint :
  forall fl, In fl flag_enumerations -> pairwise_disjoint fl = true.
Proof.
  intros fl H. cbn in H.
  repeat (destruct H as [<- | H]; [reflexivity |]). contradiction.
Qed.

Lemma flags_of_test :
  forall (fl S : list Z) (f : Z),
    pairwise_disjoint fl = true -> incl S fl -> In f fl ->
    (In f S -> flag_and (flags_of S) f = f)
    /\ (~ In f S -> flag_and (flags_of S) f = 0).
Proof.
  intros fl S f P I F. destruct (@pairwise_disjoint_spec fl P) as [_ D].
  induction S as [| s S' IH]; cbn [flags_of fold_right].
  - split; [intros [] |]. intros _. apply Z.land_0_l.
  - assert (I' : incl S' fl) by (intros u U; apply I; now right).
    destruct (IH I') as [IHin IHout]. clear IH.
    fold (flags_of S'). unfold flag_and, flag_or in *.
    rewrite Z.land_lor_distr_l.
    destruct (Z.eq_dec s f) as [-> | NE].
    + split; [intros _ | intros H; exfalso; apply H; now left].
      rewrite Z.land_diag. bitwise.
      destruct (Z.testbit f n), (Z.testbit (flags_of S') n); reflexivity.
    + rewrite (D s f) by (auto; apply I; now left). rewrite Z.lor_0_l. split.
      * intros [E | H]; [congruence | now apply IHin].
      * intros H. apply IHout. intros H'. apply H. now right.
Qed.

(** X10. In each of the five flag enumerations the one-flag enumerators
    are non-zero and share no bit, so a set built with [|] from some of
    them answers the test [set & f] exactly: the result is [f] when [f] was
    put in and 0 when it was not. *)
Theorem flag_membership_exact :
  forall (fl S : list Z) (f : Z),
    In fl flag_enumerations -> incl S fl -> In f fl ->
    f <> 0
    /\ (In f S <-> flag_and (flags_of S) f = f)
    /\ (~ In f S <-> flag_and (flags_of S) f = 0).
Proof.
  intros fl S f E I F.
  pose proof (@enumerations_disjoint fl E) as P.
  destruct (@pairwise_disjoint_spec fl P) as [N _].
  destruct (@flags_of_test fl S f P I F) as [Tin Tout].
  pose proof (N f F) as NZ.
  split; [exact NZ | split; split; auto].
  - intros H. destruct (in_dec Z.eq_dec f S) as [Y | Y]; [exact Y |].
    rewrite (Tout Y) in H. congruence.
  - intros H Y. rewrite (Tin Y) in H. congruence.
Qed.

(** X10 at the set [input_state_tracked | input_state_pinch]. *)
Lemma flag_membership_exact_witness :
  let S := [input_state_tracked; input_state_pinch] in
  flag_and (flags_of S) input_state_pinch = input_state_pinch
  /\ flag_and (flags_of S) input_state_grip = 0.
Proof.
  intros S.
  assert (E : In input_state_flags flag_enumerations) by (cbn; tauto).
  assert (I : incl S input_state_flags) by (intros u [<- | [<- | []]]; cbn; tauto).
  split.
  - apply (proj1 (proj2 (@flag_membership_exact input_state_flags S
                           input_state_pinch E I ltac:(cbn; tauto)))).
    cbn; tauto.
  - apply (proj2 (proj2 (@flag_membership_exact input_state_flags S
                           input_state_grip E I ltac:(cbn; tauto)))).
    cbn. intros [H | [H | []]]; discriminate H.
Defined.

(** X11. What the remaining enumerators are worth: the masks
    [input_source_any] and [input_state_any] are the largest [int] and
    contain every flag of their enumeration; [tex_type_image] is
    [tex_type_image_nomips | tex_type_mips]; every one-flag enumerator is a
    single bit below the sign bit; and the enumerators that are 0
    ([text_align_x_left], [text_align_y_top], [pointer_state_none],
    [input_state_none]) are invisible to the operators: and-ing any value
    with them gives 0 and or-ing them in changes nothing, so that left and
    top alignment cannot be told from no alignment at all. *)
Theorem flag_enumerators :
  (input_source_any = 2 ^ 31 - 1 /\ input_state_any = 2 ^ 31 - 1
   /\ (forall f, In f input_source_flags -> flag_and input_source_any f = f)
   /\ (forall f, In f input_state_flags -> flag_and input_state_any f = f))
  /\ Defaults.tex_type_image
     = flags_of [Defaults.tex_type_image_nomips; Defaults.tex_type_mips]
  /\ (forall fl f, In fl flag_enumerations -> In f fl ->
      exists k, 0 <= k < 31 /\ f = 2 ^ k)
  /\ (forall z a,
         In z [text_align_x_left; text_align_y_top; pointer_state_none; input_state_none] ->
         flag_and a z = 0 /\ flag_or a z = a)
  /\ flag_or text_align_x_left text_align_y_top = 0.
Proof.
  split; [| split; [| split; [| split]]].
  - split; [reflexivity | split; [reflexivity | split]];
      intros f H; cbn in H;
      repeat (destruct H as [<- | H]; [reflexivity |]); contradiction.
  - reflexivity.
  - intros fl f E F. cbn in E.
    repeat (destruct E as [<- | E];
            [cbn in F;
             repeat (destruct F as [<- | F];
                     [first [ exists 0; split; [lia | reflexivity]
                            | exists 1; split; [lia | reflexivity]
                            | exists 2; split; [lia | reflexivity]
                            | exists 3; split; [lia | reflexivity]
                            | exists 4; split; [lia | reflexivity]
                            | exists 5; split; [lia | reflexivity]
                            | exists 6; split; [lia | reflexivity]
                            | exists 7; split; [lia | reflexivity]
                            | exists 8; split; [lia | reflexivity] ] |]);
             contradiction |]).
    contradiction.
  - intros z a H. cbn in H.
    repeat (destruct H as [<- | H];
            [unfold flag_and, flag_or; now rewrite Z.land_0_r, Z.lor_0_r |]).
    contradiction.
  - reflexivity.
Qed.

(** X11 at the gaze flag and at a right-bottom alignment. *)
Lemma flag_enumerators_witness :
  flag_and input_source_any input_source_gaze = input_source_gaze
  /\ flag_and (flag_or text_align_x_right text_align_y_bottom) text_align_x_left = 0.
Proof.
  destruct flag_enumerators as ((_ & _ & A & _) & _ & _ & Z & _).
  split.
  - apply A. cbn. tauto.
  - apply Z. cbn. tauto.
Defined.

End FlagsFacts.

(* ================================================================== *)
(** * More on the default resources *)

Module ShutdownFacts.
Import Defaults Shutdown DefaultsFacts.
Local Open Scope string_scope.
Local Open Scope list_scope.

Ltac by_first_failure :=
  repeat match goal with
         | |- context [is_null ?p] =>
             let H := fresh "N" in destruct (is_null p) eqn:H
         end.

Lemma is_null_true : forall p : ptr, is_null p = true -> p = nullptr.
Proof. intros p H. now apply Z.eqb_eq in H. Qed.

Lemma is_null_false : forall p : ptr, is_null p = false -> p <> nullptr.
Proof. intros p H. now apply Z.eqb_neq in H. Qed.

(** X12. Success can be read off the globals: [defaults_init] returns true
    exactly when, after the call, the five texture globals, the four shader
    globals and the material global are all non-null.  The quad global says
    nothing: it may be null after a successful call. *)
Theorem defaults_init_success_by_globals :
  forall (E : engine) (w0 : world),
    fst (run E w0) = true
    <-> (forall gl, In gl tested_globals -> globals (snd (run E w0)) gl <> nullptr).
Proof.
  intros E w0.
  destruct (run_by_successes E w0) as (R & _ & G). rewrite R. clear R.
  revert G. cbv beta iota zeta delta [checked_results successes].
  by_first_failure; intros G; cbn [Nat.eqb];
    (split;
     [ try discriminate; intros _ gl H; rewrite G; cbn in H;
       repeat (destruct H as [<- | H]; [now apply is_null_false |]); contradiction
     | try reflexivity; intros H; exfalso ]).
  all: first
    [ apply (H sk_default_tex); [cbn; tauto | rewrite G; now apply is_null_true]
    | apply (H sk_default_tex_black); [cbn; tauto | rewrite G; now apply is_null_true]
    | apply (H sk_default_tex_gray); [cbn; tauto | rewrite G; now apply is_null_true]
    | apply (H sk_default_tex_flat); [cbn; tauto | rewrite G; now apply is_null_true]
    | apply (H sk_default_tex_rough); [cbn; tauto | rewrite G; now apply is_null_true]
    | apply (H sk_default_shader); [cbn; tauto | rewrite G; now apply is_null_true]
    | apply (H sk_default_shader_pbr); [cbn; tauto | rewrite G; now apply is_null_true]
    | apply (H sk_default_shader_unlit); [cbn; tauto | rewrite G; now apply is_null_true]
    | apply (H sk_default_shader_font); [cbn; tauto | rewrite G; now apply is_null_true]
    | apply (H sk_default_material); [cbn; tauto | rewrite G; now apply is_null_true] ].
Qed.

(** X12 at an engine where every creation succeeds. *)
Lemma defaults_init_success_by_globals_witness :
  fst (run (engine_failing []) world0) = true.
Proof.
  apply (proj2 (defaults_init_success_by_globals (engine_failing []) world0)).
  intros gl H. cbn [tested_globals In] in H.
  repeat (destruct H as [<- | H]; [vm_compute; discriminate |]).
  contradiction.
Defined.

Lemma in_firstn : forall (A : Type) (n : nat) (l : list A) (u : A), In u (firstn n l) -> In u l.
Proof.
  intros A n l u H. rewrite <- (firstn_skipn n l). apply in_or_app. now left.
Qed.

(** X13. Every buffer [defaults_init] hands to the engine has the size it
    announces, in every run and however far the run gets: each texture
    receives [width * height] colours, the quad receives as many vertices
    as [vertex_count] says and as many indices as [index_count] says, a
    whole number of triangles whose indices all lie below the number of
    vertices. *)
Theorem defaults_init_buffers_sized :
  forall (E : engine) (w0 : world),
    exists new,
      calls (snd (run E w0)) = calls w0 ++ new
      /\ forall e, In e new -> well_sized e = true.
Proof.
  intros E w0.
  destruct (run_by_successes E w0) as (_ & C & _).
  eexists. split; [exact C |].
  intros e H. apply in_firstn in H.
  assert (A : forallb well_sized (all_calls E) = true) by reflexivity.
  rewrite forallb_forall in A. now apply A.
Qed.

(** X13 at an engine whose material cannot be created. *)
Lemma defaults_init_buffers_sized_witness :
  let E := engine_failing ["default/material"] in
  exists new,
    calls (snd (run E world0)) = calls world0 ++ new
    /\ forall e, In e new -> well_sized e = true.
Proof.
  intros E. exact (defaults_init_buffers_sized E world0).
Defined.

(** X14. A successful [defaults_init] followed by [defaults_shutdown]
    releases what was created: the eleven handles the creating calls
    returned are, up to order, the eleven handles passed to the release
    functions, each to the function of its own kind. *)
Theorem shutdown_releases_what_init_created :
  forall (E : engine) (w0 : world),
    fst (run E w0) = true ->
    exists new,
      calls (snd (run E w0)) = calls w0 ++ new
      /\ Permutation (created_handles new)
                     (released_handles (defaults_shutdown (snd (run E w0)))).
Proof.
  intros E w0 T.
  destruct (run_by_successes E w0) as (R & C & G).
  rewrite T in R. symmetry in R. apply Nat.eqb_eq in R. rewrite R in C, G.
  eexists. split; [exact C |].
  unfold defaults_shutdown, released_handles. rewrite !G.
  cbn [assignment_rank assignments_made nth Nat.ltb Nat.leb assigned_value map released].
  cbn [calls_made nth]. unfold all_calls. cbn [firstn created_handles flat_map created app].
  match goal with
  | |- Permutation (?t1 :: ?t2 :: ?t3 :: ?t4 :: ?t5 :: ?rest) _ =>
      change (Permutation ([t1; t2; t3; t4; t5] ++ rest)
                          (rev rest ++ [t1; t2; t3; t4; t5]))
  end.
  etransitivity; [apply Permutation_app_comm |].
  apply Permutation_app_tail, Permutation_rev.
Qed.

(** X14 at an engine where every creation succeeds. *)
Lemma shutdown_releases_what_init_created_witness :
  let E := engine_failing [] in
  exists new,
    calls (snd (run E world0)) = calls world0 ++ new
    /\ Permutation (created_handles new)
                   (released_handles (defaults_shutdown (snd (run E world0)))).
Proof.
  intros E. apply shutdown_releases_what_init_created. reflexivity.
Defined.

(** X15. A failed [defaults_init] leaves [defaults_shutdown] with null
    handles to release.  Starting from zero-initialised globals, after a
    call that returned false: every handle that was created has its release
    call; every other release call is given a null pointer; and the
    material's release is always one of those. *)
Theorem shutdown_after_failed_init :
  forall (E : engine) (w0 : world),
    (forall gl, globals w0 gl = nullptr) ->
    fst (run E w0) = false ->
    exists new,
      calls (snd (run E w0)) = calls w0 ++ new
      /\ incl (created_handles new)
              (released_handles (defaults_shutdown (snd (run E w0))))
      /\ (forall k p,
             In (k, p) (released_handles (defaults_shutdown (snd (run E w0)))) ->
             In (k, p) (created_handles new) \/ p = nullptr)
      /\ In (material_release_ev nullptr) (defaults_shutdown (snd (run E w0))).
Proof.
  intros E w0 Z0 F.
  destruct (run_by_successes E w0) as (R & C & G).
  rewrite F in R. eexists. split; [exact C |].
  unfold defaults_shutdown, released_handles. rewrite !G, !Z0.
  clear C G F. revert R.
  cbv beta iota zeta delta [checked_results successes].
  by_first_failure; intros R; try discriminate R; clear R;
    repeat match goal with
           | H : is_null _ = true |- _ => apply is_null_true in H
           end;
    cbn [assignment_rank assignments_made nth Nat.ltb Nat.leb assigned_value
         map released calls_made];
    unfold all_calls; cbn [firstn created_handles flat_map created app];
    (split; [| split]).
  all: try (intros kp H; cbn [In] in H |- *;
            repeat (destruct H as [<- | H]; [tauto |]); contradiction).
  all: try (intros k p H; cbn [In] in H |- *;
            repeat (destruct H as [H | H];
                    [injection H as <- <-; first [right; reflexivity | left; tauto] |]);
            contradiction).
  all: cbn [In]; rewrite ?N, ?N0, ?N1, ?N2, ?N3, ?N4, ?N5, ?N6, ?N7, ?N8; tauto.
Qed.

(** X15 at an engine whose first texture fails: nothing but null pointers
    is released. *)
Lemma shutdown_after_failed_init_witness :
  let E := engine_failing ["default/tex2d"] in
  In (material_release_ev nullptr) (defaults_shutdown (snd (run E world0))).
Proof.
  intros E.
  assert (F : fst (run E world0) = false) by (vm_compute; reflexivity).
  destruct (@shutdown_after_failed_init E world0 (fun _ => eq_refl) F)
    as (new & _ & _ & _ & M).
  exact M.
Defined.

(** X16. [defaults_init] looks at nothing it did not create: the value it
    returns and the calls it makes are the same whatever the globals held
    and whatever happened before, and a global it does not reach keeps the
    value it had. *)
Theorem defaults_init_ignores_previous_state :
  forall (E : engine) (w0 w0' : world),
    fst (run E w0) = fst (run E w0')
    /\ (exists new,
           calls (snd (run E w0)) = calls w0 ++ new
           /\ calls (snd (run E w0')) = calls w0' ++ new)
    /\ (forall gl,
           globals (snd (run E w0)) gl = globals (snd (run E w0')) gl
           \/ (globals (snd (run E w0)) gl = globals w0 gl
               /\ globals (snd (run E w0')) gl = globals w0' gl)).
Proof.
  intros E w0 w0'.
  destruct (run_by_successes E w0) as (R & C & G).
  destruct (run_by_successes E w0') as (R' & C' & G').
  split; [congruence | split].
  - eexists. split; [exact C | exact C'].
  - intros gl. rewrite G, G'.
    destruct (Nat.ltb _ _); [left; reflexivity | right; split; reflexivity].
Qed.

End ShutdownFacts.

(* ================================================================== *)
(** * Units *)

Module UnitsFacts.
Import Units F32Facts.

(** X17. The unit constants are the floats nearest to their decimal
    literals and are reciprocal in float arithmetic: [cm2m * m2cm],
    [mm2m * m2mm] and [deg2rad * rad2deg] are exactly 1.  The macros
    [unit_cm] and [unit_mm] scale by [cm2m] and [mm2m], commute with
    negation, and take 100 cm and 1000 mm to exactly 1 m; [unit_dmm] is
    symmetric in its arguments.  Converting whole degrees to radians and
    back is still not the identity: of 0..360, twenty-three values, the
    smallest of them 15, return as a neighbouring float. *)
Theorem unit_constants :
  (nearest_to deg2rad (Qmake 1745329252 100000000000) = true
   /\ nearest_to rad2deg (Qmake 57295779513 1000000000) = true
   /\ nearest_to cm2m (Qmake 1 100) = true
   /\ nearest_to mm2m (Qmake 1 1000) = true)
  /\ (cm2m * m2cm = #1 /\ mm2m * m2mm = #1 /\ deg2rad * rad2deg = #1)
  /\ (forall u v : float,
         unit_cm u = u * cm2m /\ unit_mm u = u * mm2m
         /\ unit_cm (- u) = - unit_cm u /\ unit_mm (- u) = - unit_mm u
         /\ unit_dmm u v = unit_dmm v u)
  /\ (unit_cm #100 = #1 /\ unit_mm #1000 = #1)
  /\ (List.length degrees_altered = 23%nat
      /\ hd 0%Z degrees_altered = 15%Z
      /\ (#15 * deg2rad) * rad2deg = S754_finite false 15728641 (-20)).
Proof.
  split; [| split; [| split; [| split]]].
  - repeat split; vm_compute; reflexivity.
  - repeat split; vm_compute; reflexivity.
  - intros u v. unfold unit_cm, unit_mm, unit_dmm.
    repeat split; auto using neg_mul, mul_comm.
  - split; vm_compute; reflexivity.
  - repeat split; vm_compute; reflexivity.
Qed.

End UnitsFacts.
